(** * Cost-Curve-Visualizer: the data pipeline of [src/App.js]

    A shallow embedding of the CSV parser ([handleFileUpload]), of the
    cumulative layout and the quartiles (the [useMemo] that yields
    [cumulativeData], [maxCost], [totalProduction], [quartiles]), of the
    geometry handed to the SVG renderer ([getBars], [yAxisTicks],
    [xAxisTicks], [quartileLines], the weighted-average and gold-price
    overlays).

    Numbers.  A JavaScript number is modelled by [JsNum.num]: a finite
    value carried as an exact rational, or one of the three special values
    [+Infinity], [-Infinity], [NaN], with the IEEE rules for the special
    values written out.  [parseFloat] rounds the literal it reads to the
    nearest double ([JsNum.toDouble]).  The arithmetic operations on
    finite values are exact: the rounding of their results, with the
    overflow and the underflow it brings, and the sign of zero are not
    modelled.  The statements about coordinates are therefore kept to
    bounds, orders and equalities that rounding to nearest preserves, and
    finiteness is asked of the totals the code computes, not of the
    records.

    State.  The weighted average is a piece of React state that an effect
    sets after the render that follows a change of [data]; [AppState] and
    its steps model that delay.

    Strings.  A string is a list of code units below 256 ([ascii]). *)

From Stdlib Require Import List Bool Arith ZArith QArith Qround Qpower Lia Lqa.
From Stdlib Require Import Ascii String Sorting.Sorted Permutation.
Import ListNotations.

Set Implicit Arguments.

(* ------------------------------------------------------------------ *)
(** ** JavaScript numbers *)

Module JsNum.

Inductive num : Type :=
| Fin (q : Q)
| PInf
| NInf
| NaN.

Definition zero : num := Fin 0.

Definition Qlt_bool (x y : Q) : bool := negb (Qle_bool y x).

Definition isNaN (a : num) : bool :=
  match a with NaN => true | _ => false end.

Definition isFinite (a : num) : bool :=
  match a with Fin _ => true | _ => false end.

Definition neg (a : num) : num :=
  match a with
  | Fin x => Fin (- x)
  | PInf => NInf
  | NInf => PInf
  | NaN => NaN
  end.

(** [a + b] *)
Definition add (a b : num) : num :=
  match a, b with
  | NaN, _ | _, NaN => NaN
  | Fin x, Fin y => Fin (x + y)
  | PInf, NInf | NInf, PInf => NaN
  | PInf, _ | _, PInf => PInf
  | NInf, _ | _, NInf => NInf
  end.

(** [a - b] *)
Definition sub (a b : num) : num := add a (neg b).

(** the sign of a value that is not NaN, as [Gt], [Eq] or [Lt] *)
Definition sign (a : num) : comparison :=
  match a with
  | Fin x => x ?= 0
  | PInf => Gt
  | NInf => Lt
  | NaN => Eq
  end.

Definition signedInf (c : comparison) : num :=
  match c with Gt => PInf | Lt => NInf | Eq => NaN end.

Definition mulSign (c d : comparison) : comparison :=
  match c, d with
  | Eq, _ | _, Eq => Eq
  | Gt, Gt | Lt, Lt => Gt
  | _, _ => Lt
  end.

(** [a * b]: an infinity times zero is NaN *)
Definition mul (a b : num) : num :=
  match a, b with
  | NaN, _ | _, NaN => NaN
  | Fin x, Fin y => Fin (x * y)
  | _, _ => signedInf (mulSign (sign a) (sign b))
  end.

(** [a / b]: [0/0] and [Infinity/Infinity] are NaN, [x/0] is an infinity
    of the sign of [x], a finite value over an infinity is [0]. *)
Definition div (a b : num) : num :=
  match a, b with
  | NaN, _ | _, NaN => NaN
  | Fin x, Fin y =>
      if Qeq_bool y 0 then signedInf (x ?= 0) else Fin (x / y)
  | Fin _, _ => Fin 0
  | _, Fin y =>
      if Qeq_bool y 0 then a else signedInf (mulSign (sign a) (y ?= 0))
  | _, _ => NaN
  end.

(** [a < b]; every comparison with NaN is false *)
Definition lt (a b : num) : bool :=
  match a, b with
  | NaN, _ | _, NaN => false
  | Fin x, Fin y => Qlt_bool x y
  | NInf, NInf | PInf, _ | Fin _, NInf => false
  | NInf, _ | Fin _, PInf => true
  end.

(** [a <= b] *)
Definition le (a b : num) : bool :=
  match a, b with
  | NaN, _ | _, NaN => false
  | Fin x, Fin y => Qle_bool x y
  | NInf, _ | _, PInf => true
  | PInf, _ | Fin _, NInf => false
  end.

Definition gt (a b : num) : bool := lt b a.
Definition ge (a b : num) : bool := le b a.

(** [a === b] on numbers *)
Definition eqb (a b : num) : bool :=
  match a, b with
  | Fin x, Fin y => Qeq_bool x y
  | PInf, PInf | NInf, NInf => true
  | _, _ => false
  end.

(** [Math.max(a, b)] *)
Definition max (a b : num) : num :=
  match a, b with
  | NaN, _ | _, NaN => NaN
  | _, _ => if lt a b then b else a
  end.

(** [Math.floor] and [Math.ceil] *)
Definition floor (a : num) : num :=
  match a with Fin x => Fin (inject_Z (Qfloor x)) | _ => a end.

Definition ceil (a : num) : num :=
  match a with Fin x => Fin (inject_Z (Qceiling x)) | _ => a end.

(** ToBoolean on a number: [0] and NaN are falsy *)
Definition truthy (a : num) : bool :=
  match a with
  | Fin x => negb (Qeq_bool x 0)
  | NaN => false
  | _ => true
  end.

(** [a || 0] *)
Definition orZero (a : num) : num := if truthy a then a else zero.

Definition ofNat (n : nat) : num := Fin (inject_Z (Z.of_nat n)).
Definition ofZ (z : Z) : num := Fin (inject_Z z).

(** *** The Number value for a rational: round to nearest, ties to even *)

(** [2^z] as a rational *)
Definition pow2 (z : Z) : Q := Qpower (2 # 1) z.

(** the binade of a positive rational [q]: the [e] with
    [2^e <= q < 2^(e+1)] *)
Definition binade (q : Q) : Z :=
  let e := (Z.log2 (Qnum q) - Z.log2 (Zpos (Qden q)))%Z in
  if Qle_bool (pow2 e) q then e else (e - 1)%Z.

(** the integer nearest to [m], the even one of two that are as near *)
Definition roundEven (m : Q) : Z :=
  let f := Qfloor m in
  match ((m - inject_Z f) ?= (1 # 2))%Q with
  | Lt => f
  | Gt => (f + 1)%Z
  | Eq => if Z.even f then f else (f + 1)%Z
  end.

(** a positive rational, rounded to 53 significant bits, or to a multiple
    of [2^-1074] below the normal range; [Infinity] from [2^1024] on *)
Definition roundPos (q : Q) : num :=
  let k := Z.max (binade q - 52) (-1074) in
  let v := (inject_Z (roundEven (q / pow2 k)) * pow2 k)%Q in
  if Qle_bool (pow2 1024) v then PInf else Fin (Qred v).

Definition toDouble (q : Q) : num :=
  match (q ?= 0)%Q with
  | Eq => Fin 0
  | Gt => roundPos q
  | Lt => neg (roundPos (- q))
  end.

End JsNum.

Import JsNum.

(* ------------------------------------------------------------------ *)
(** ** Outcomes of JavaScript evaluation *)

(** A JavaScript expression yields a value, throws, or never returns. *)
Inductive outcome (A : Type) : Type :=
| Ok (a : A)
| Throws
| Diverges.

Arguments Ok {A} a.
Arguments Throws {A}.
Arguments Diverges {A}.

Definition bind {A B : Type} (m : outcome A) (k : A -> outcome B) : outcome B :=
  match m with
  | Ok a => k a
  | Throws => Throws
  | Diverges => Diverges
  end.

Notation "x <- m ;; k" := (bind m (fun x => k))
  (at level 61, m at next level, right associativity).

(** [Array.prototype.map] with the index as second argument *)
Fixpoint mapiM {A B : Type} (f : A -> nat -> outcome B) (i : nat) (l : list A)
  : outcome (list B) :=
  match l with
  | [] => Ok []
  | a :: t => b <- f a i ;; r <- mapiM f (S i) t ;; Ok (b :: r)
  end.

(* ------------------------------------------------------------------ *)
(** ** Strings and the regular expressions of the parser *)

Module Str.

Local Open Scope char_scope.

Definition dquote : ascii := "034"%char.
Definition comma : ascii := ","%char.
Definition newline : ascii := "010"%char.

(** [\s], the white space of [trim] and of [parseFloat] (below 256) *)
Definition isSpace (c : ascii) : bool :=
  let n := nat_of_ascii c in
  ((9 <=? n)%nat && (n <=? 13)%nat) || (n =? 32)%nat || (n =? 160)%nat.

(** the characters [.] does not match *)
Definition isLineTerminator (c : ascii) : bool :=
  let n := nat_of_ascii c in (n =? 10)%nat || (n =? 13)%nat.

(** the class of characters that are neither a double quote nor a comma *)
Definition isPlain (c : ascii) : bool :=
  negb (Ascii.eqb c dquote) && negb (Ascii.eqb c comma).

Definition isDigit (c : ascii) : bool :=
  let n := nat_of_ascii c in (48 <=? n)%nat && (n <=? 57)%nat.

Fixpoint skipSpaces (s : string) : string :=
  match s with
  | String c t => if isSpace c then skipSpaces t else s
  | EmptyString => EmptyString
  end.

(** the lookahead [(?=\s*,|\s*$)] at the start of [s] *)
Definition lookahead (s : string) : bool :=
  match skipSpaces s with
  | EmptyString => true
  | String c _ => Ascii.eqb c comma
  end.

(** the first alternative after its opening quote: a lazy star over [.],
    a closing quote, the lookahead. The lazy star stops at the first quote
    after which the lookahead holds. Yields the text matched and the rest. *)
Fixpoint quotedTail (s : string) : option (string * string) :=
  match s with
  | EmptyString => None
  | String c t =>
      if Ascii.eqb c dquote && lookahead t then Some (String c EmptyString, t)
      else if isLineTerminator c then None
      else match quotedTail t with
           | Some (m, r) => Some (String c m, r)
           | None => None
           end
  end.

(** the second alternative: a greedy run of plain characters, then the
    lookahead. The greedy plus gives back characters until the lookahead
    holds. *)
Fixpoint plainRun (s : string) : option (string * string) :=
  match s with
  | EmptyString => None
  | String c t =>
      if isPlain c then
        match plainRun t with
        | Some (m, r) => Some (String c m, r)
        | None => if lookahead t then Some (String c EmptyString, t) else None
        end
      else None
  end.

(** one match of the row regular expression (a quoted run or a plain
    run, followed by the lookahead), anchored at the start of [s] *)
Definition matchAt (s : string) : option (string * string) :=
  match s with
  | EmptyString => None
  | String c t =>
      if Ascii.eqb c dquote then
        match quotedTail t with
        | Some (m, r) => Some (String c m, r)
        | None => None
        end
      else plainRun s
  end.

(** all matches, left to right ([/g]); [skip] counts the characters still
    covered by the previous match, that is the distance to [lastIndex]. *)
Fixpoint matchAll (skip : nat) (s : string) : list string :=
  match s with
  | EmptyString => []
  | String _ t =>
      match skip with
      | S k => matchAll k t
      | 0%nat =>
          match matchAt s with
          | Some (m, _) => m :: matchAll (String.length m - 1)%nat t
          | None => matchAll 0 t
          end
      end
  end.

(** [row.match(re)]: the array of matches, or [null] when there is none *)
Definition rowMatch (row : string) : option (list string) :=
  match matchAll 0 row with
  | [] => None
  | l => Some l
  end.

(** [text.split('\n')] *)
Fixpoint splitLines (s : string) : list string :=
  match s with
  | EmptyString => [EmptyString]
  | String c t =>
      if Ascii.eqb c newline then EmptyString :: splitLines t
      else match splitLines t with
           | h :: r => String c h :: r
           | [] => [String c EmptyString]
           end
  end.

(** [replace] with the empty string, globally, of the double quotes
    (for [name]) and of the double quotes and commas (for [production]) *)
Fixpoint removeChars (p : ascii -> bool) (s : string) : string :=
  match s with
  | EmptyString => EmptyString
  | String c t => if p c then removeChars p t else String c (removeChars p t)
  end.

Definition stripQuotes : string -> string :=
  removeChars (fun c => Ascii.eqb c dquote).

Definition stripQuotesCommas : string -> string :=
  removeChars (fun c => negb (isPlain c)).

(** [s.trim()] *)
Fixpoint trimEnd (s : string) : string :=
  match s with
  | EmptyString => EmptyString
  | String c t =>
      match trimEnd t with
      | EmptyString => if isSpace c then EmptyString else String c EmptyString
      | t' => String c t'
      end
  end.

Definition trim (s : string) : string := trimEnd (skipSpaces s).

(** *** [parseFloat] *)

Fixpoint spanDigits (s : string) : list ascii * string :=
  match s with
  | String c t =>
      if isDigit c then let '(ds, r) := spanDigits t in (c :: ds, r)
      else ([], s)
  | EmptyString => ([], EmptyString)
  end.

Definition digitVal (c : ascii) : Z := Z.of_nat (nat_of_ascii c - 48)%nat.

Definition digitsVal (ds : list ascii) : Z :=
  fold_left (fun acc c => (10 * acc + digitVal c)%Z) ds 0%Z.

(** the optional sign of a literal or of an exponent *)
Definition takeSign (s : string) : bool * string :=
  match s with
  | String c t =>
      if Ascii.eqb c "-" then (true, t)
      else if Ascii.eqb c "+" then (false, t)
      else (false, s)
  | EmptyString => (false, EmptyString)
  end.

(** ExponentPart, when one is there: [e] or [E], a sign, digits *)
Definition exponent (s : string) : Z :=
  match s with
  | String c t =>
      if Ascii.eqb c "e" || Ascii.eqb c "E" then
        let '(negative, t') := takeSign t in
        match spanDigits t' with
        | ([], _) => 0%Z
        | (ds, _) => if negative then (- digitsVal ds)%Z else digitsVal ds
        end
      else 0%Z
  | EmptyString => 0%Z
  end.

(** [10^z] as a rational *)
Definition pow10 (z : Z) : Q := Qpower (10 # 1) z.

(** [parseFloat(s)]: white space is skipped, then the longest prefix that
    is a StrDecimalLiteral is converted to the nearest double; NaN when
    there is none. *)
Definition parseFloat (s : string) : num :=
  let '(negative, body) := takeSign (skipSpaces s) in
  if prefix "Infinity"%string body then (if negative then NInf else PInf)
  else
    let '(ip, r1) := spanDigits body in
    let '(fp, r2) :=
      match r1 with
      | String c t => if Ascii.eqb c "." then spanDigits t else ([], r1)
      | EmptyString => ([], r1)
      end in
    match ip, fp with
    | [], [] => NaN
    | _, _ =>
        let mant := digitsVal (ip ++ fp) in
        let e := (exponent r2 - Z.of_nat (List.length fp))%Z in
        let v := (inject_Z mant * pow10 e)%Q in
        toDouble (if negative then - v else v)
    end.

End Str.

Import Str.

(* ------------------------------------------------------------------ *)
(** ** [Array.prototype.sort] *)

Section ArraySort.

Variable A : Type.

(** the comparator [(a, b) => ...]; a result that is NaN counts as [0] *)
Variable cmp : A -> A -> num.

(** [x] goes after [y] exactly when [cmp x y > 0] *)
Definition after (x y : A) : bool := gt (cmp x y) zero.

(** [x] comes before every element of [l] in the input: it is put
    before the first element it does not go after, so that equal
    elements keep their order. *)
Fixpoint insert (x : A) (l : list A) : list A :=
  match l with
  | [] => [x]
  | y :: t => if after x y then y :: insert x t else x :: l
  end.

(** The sort is stable (ECMAScript 2019); with a consistent comparator
    its result is the one stable sorted arrangement, which a stable
    insertion sort computes. *)
Fixpoint arraySort (l : list A) : list A :=
  match l with
  | [] => []
  | x :: t => insert x (arraySort t)
  end.

(** [a] is not to be put after [b] *)
Definition inOrder (a b : A) : Prop := after a b = false.

End ArraySort.

Arguments after : simpl never.

(* ------------------------------------------------------------------ *)
(** ** The parser: [handleFileUpload] *)

(** An element of [parsedData] and of the [data] state. *)
Record Item : Type := mkItem {
  name : string;
  production : num;
  cost : num;
  highlight : bool;
  id : nat
}.

(** [rows]: every line of the text, matched against the row expression *)
Definition rows (text : string) : list (option (list string)) :=
  map rowMatch (splitLines text).

(** [row => row && row.length >= 4] *)
Definition rowOk (row : option (list string)) : bool :=
  match row with
  | Some fields => (4 <=? List.length fields)%nat
  | None => false
  end.

(** a property access [row[i].f] throws on [undefined] *)
Definition member {A : Type} (o : option A) : outcome A :=
  match o with
  | Some a => Ok a
  | None => Throws
  end.

(** [(row, index) => ({ name: ..., production: ..., cost: ...,
    highlight: ..., id: index })] *)
Definition mapRow (row : option (list string)) (index : nat) : outcome Item :=
  fields <- member row ;;
  f0 <- member (nth_error fields 0) ;;
  f1 <- member (nth_error fields 1) ;;
  Ok {| name := trim (stripQuotes f0);
        production := orZero (parseFloat (stripQuotesCommas f1));
        cost := orZero (match nth_error fields 2 with
                        | Some f2 => parseFloat f2
                        | None => NaN
                        end);
        highlight := match nth_error fields 3 with
                     | Some EmptyString | None => false
                     | Some f3 => String.eqb (trim f3) "1"
                     end;
        id := index |}.

(** [item => item.production > 0 && item.cost > 0] *)
Definition positiveItem (item : Item) : bool :=
  gt (production item) zero && gt (cost item) zero.

(** [rows.slice(1)] *)
Definition dataRows (text : string) : list (option (list string)) :=
  tl (rows text).

(** [parsedData], before it is sorted *)
Definition parsedData (text : string) : outcome (list Item) :=
  mapped <- mapiM mapRow 0 (filter rowOk (dataRows text)) ;;
  Ok (filter positiveItem mapped).

(** [(a, b) => a.cost - b.cost] *)
Definition byCost (a b : Item) : num := sub (cost a) (cost b).

(** the list given to [setData] when the file has been read *)
Definition handleFileUpload (text : string) : outcome (list Item) :=
  parsed <- parsedData text ;;
  Ok (arraySort byCost parsed).

(* ------------------------------------------------------------------ *)
(** ** The layout: [cumulativeData], [maxCost], [totalProduction],
       [quartiles] *)

Definition SVG_WIDTH : num := ofZ 1200.
Definition SVG_HEIGHT : num := ofZ 600.

Record Margin : Type := { top : num; right : num; left : num; bottom : num }.

Definition MARGIN : Margin :=
  {| top := ofZ 40; right := ofZ 30; left := ofZ 80; bottom := ofZ 80 |}.

Definition chartWidth : num := sub (sub SVG_WIDTH (left MARGIN)) (right MARGIN).
Definition chartHeight : num := sub (sub SVG_HEIGHT (top MARGIN)) (bottom MARGIN).

(** [{ ...item, cumulativeProduction: cumulative }] *)
Record LayoutItem : Type := mkLayout {
  item : Item;
  cumulativeProduction : num
}.

(** The two variables the callback of [data.map] updates. *)
Record Acc : Type := mkAcc { cumulative : num; maxCostAcc : num }.

(** [data.map(item => ...)] with the state of [cumulative] and [maxCost]
    passed along *)
Fixpoint layoutFrom (st : Acc) (data : list Item) : list LayoutItem * Acc :=
  match data with
  | [] => ([], st)
  | it :: rest =>
      let result := mkLayout it (cumulative st) in
      let st' := {| cumulative := add (cumulative st) (production it);
                    maxCostAcc := max (maxCostAcc st) (cost it) |} in
      let '(out, final) := layoutFrom st' rest in
      (result :: out, final)
  end.

Definition layout (data : list Item) : list LayoutItem * Acc :=
  layoutFrom {| cumulative := zero; maxCostAcc := zero |} data.

Definition cumulativeData (data : list Item) : list LayoutItem := fst (layout data).
Definition maxCost (data : list Item) : num := maxCostAcc (snd (layout data)).
Definition totalProduction (data : list Item) : num := cumulative (snd (layout data)).

Record Quartiles : Type := { q1 : num; median : num; q3 : num }.

(** [cumulativeData.map(item => item.cost).sort((a, b) => a - b)] *)
Definition sortedCosts (data : list Item) : list num :=
  arraySort sub (map (fun l => cost (item l)) (cumulativeData data)).

(** [arr[i]] for a number [i]: [undefined] unless [i] is an index *)
Definition index (arr : list num) (i : num) : option num :=
  match i with
  | Fin q =>
      if Qeq_bool q (inject_Z (Qfloor q)) && Qle_bool 0 q
      then nth_error arr (Z.to_nat (Qfloor q))
      else None
  | _ => None
  end.

(** [v || 0] for [v] a number or [undefined] *)
Definition orZeroU (v : option num) : num :=
  match v with
  | Some a => orZero a
  | None => zero
  end.

(** [sortedCosts[Math.floor(len * p)] || 0] *)
Definition quantile (sorted : list num) (p : Q) : num :=
  let len := ofNat (List.length sorted) in
  orZeroU (index sorted (floor (mul len (Fin p)))).

Definition quartiles (data : list Item) : Quartiles :=
  let s := sortedCosts data in
  {| q1 := quantile s (1 # 4);
     median := quantile s (1 # 2);
     q3 := quantile s (3 # 4) |}.

(* ------------------------------------------------------------------ *)
(** ** The geometry given to the renderer *)

(** [SVG_HEIGHT - MARGIN.bottom - (v / maxCost) * chartHeight] *)
Definition yOf (v mc : num) : num :=
  sub (sub SVG_HEIGHT (bottom MARGIN)) (mul (div v mc) chartHeight).

(** [(v / totalProduction) * chartWidth + MARGIN.left] *)
Definition xOf (v total : num) : num :=
  add (mul (div v total) chartWidth) (left MARGIN).

(** the attributes of a [<rect>] *)
Record Rect : Type := {
  rectKey : nat;
  rectX : num;
  rectY : num;
  rectWidth : num;
  rectHeight : num;
  rectHighlight : bool
}.

Definition barPadding : num := ofZ 1.

Definition getBars (data : list Item) : list Rect :=
  let total := totalProduction data in
  let mc := maxCost data in
  map (fun l =>
         let it := item l in
         {| rectKey := id it;
            rectX := xOf (cumulativeProduction l) total;
            rectY := yOf (cost it) mc;
            rectWidth :=
              max (sub (mul (div (production it) total) chartWidth) barPadding)
                  (ofZ 1);
            rectHeight := mul (div (cost it) mc) chartHeight;
            rectHighlight := highlight it |})
      (cumulativeData data).

(** an axis tick: the value it shows and its coordinate *)
Record Tick : Type := { tickValue : num; tickPos : num }.

(** the length [Array.from({ length: n }, ...)] builds: ToLength of [n],
    and a RangeError above [2^32 - 1] *)
Definition arrayLength (n : num) : outcome nat :=
  match n with
  | Fin q =>
      if Qle_bool q 0 then Ok 0%nat
      else if Qle_bool q (inject_Z (2 ^ 32 - 1)) then Ok (Z.to_nat (Qfloor q))
      else Throws
  | PInf => Throws
  | _ => Ok 0%nat
  end.

(** [yAxisTicks]: [None] stands for [null] *)
Definition yAxisTicks (showHorizontalLines : bool) (data : list Item)
  : option (outcome (list Tick)) :=
  if negb showHorizontalLines then None
  else
    let mc := maxCost data in
    let tickCount := ceil (div mc (ofZ 500)) in
    Some (n <- arrayLength (add tickCount (ofZ 1)) ;;
          Ok (map (fun i =>
                     let value := mul (ofZ 500) (ofNat i) in
                     {| tickValue := value; tickPos := yOf value mc |})
                  (seq 0 n))).

(** [for (let i = 0; i <= maxTick; i += tickInterval) ticks.push(...)];
    [fuel] bounds the number of turns, and the loop that outlives it
    does not end. *)
Fixpoint xTicksLoop (fuel : nat) (i maxTick tickInterval total : num)
  : outcome (list Tick) :=
  if le i maxTick then
    match fuel with
    | O => Diverges
    | S f =>
        rest <- xTicksLoop f (add i tickInterval) maxTick tickInterval total ;;
        Ok ({| tickValue := i; tickPos := xOf i total |} :: rest)
    end
  else Ok [].

(** the number of turns of the loop when [maxTick] is finite *)
Definition xTicksFuel (maxTick tickInterval : num) : nat :=
  match div maxTick tickInterval with
  | Fin q => S (Z.to_nat (Qfloor q))
  | _ => O
  end.

Definition xAxisTicks (showXAxisTickers : bool) (data : list Item)
  : option (outcome (list Tick)) :=
  if negb showXAxisTickers then None
  else
    let total := totalProduction data in
    let tickInterval := ofZ 10000 in
    let maxTick := mul (floor (div total tickInterval)) tickInterval in
    Some (xTicksLoop (xTicksFuel maxTick tickInterval) zero maxTick
                     tickInterval total).

(** the keys of [quartiles], in the order of [Object.entries] *)
Inductive QuartileKey : Type := KQ1 | KMedian | KQ3.

(** a quartile marker: its key, the [x] of its line and label, its value *)
Record Marker : Type := { markerKey : QuartileKey; markerX : num; markerValue : num }.

(** ToNumber of a number or [undefined] *)
Definition toNumber (v : option num) : num :=
  match v with
  | Some a => a
  | None => NaN
  end.

(** [cumulativeData.find(item => item.cost >= value)?.cumulativeProduction] *)
Definition findCumulative (ls : list LayoutItem) (value : num) : option num :=
  option_map cumulativeProduction
             (find (fun l => ge (cost (item l)) value) ls).

Definition quartileMarker (data : list Item) (key : QuartileKey) (value : num)
  : Marker :=
  {| markerKey := key;
     markerX := xOf (toNumber (findCumulative (cumulativeData data) value))
                    (totalProduction data);
     markerValue := value |}.

(** [quartileLines]: [None] stands for [null] *)
Definition quartileLines (showQuartiles : bool) (data : list Item)
  : option (list Marker) :=
  if negb showQuartiles then None
  else
    let q := quartiles data in
    Some (map (fun e => quartileMarker data (fst e) (snd e))
              [(KQ1, q1 q); (KMedian, median q); (KQ3, q3 q)]).

(** the value the effect on [data] stores with [setWeightedAverageCost] *)
Definition weightedAverageCost (data : list Item) : num :=
  let total := fold_left (fun sum it => add sum (production it)) data zero in
  let weightedSum :=
    fold_left (fun sum it => add sum (mul (cost it) (production it))) data zero in
  div weightedSum total.

(** a horizontal overlay line: the [y] of the line and of its label *)
Record Overlay : Type := { lineY : num; labelY : num }.

Definition overlayAt (v mc : num) : Overlay :=
  {| lineY := yOf v mc; labelY := sub (yOf v mc) (ofZ 5) |}.

(** [showWeightedAverage && weightedAverageCost > 0 && (<g>...</g>)],
    where [weightedAverageCost] is the state of the component and
    [maxCost] comes from the [data] of the render: [None] stands for
    [false], which React does not render *)
Definition weightedAverageOverlay (showWeightedAverage : bool)
  (storedAverage : num) (data : list Item) : option Overlay :=
  if showWeightedAverage && gt storedAverage zero
  then Some (overlayAt storedAverage (maxCost data))
  else None.

(** the state the overlay reads: [data] and [weightedAverageCost], as
    [useState([])] and [useState(0)] create them *)
Record AppState : Type := {
  stateData : list Item;
  stateAverage : num
}.

Definition initialState : AppState :=
  {| stateData := []; stateAverage := zero |}.

(** [setData(parsedData)] at the end of [handleFileUpload] *)
Definition setData (parsed : list Item) (st : AppState) : AppState :=
  {| stateData := parsed; stateAverage := stateAverage st |}.

(** the effect on [data]: it runs once the render with the new [data] is
    committed, and stores the average with [setWeightedAverageCost] *)
Definition averageEffect (st : AppState) : AppState :=
  {| stateData := stateData st;
     stateAverage := weightedAverageCost (stateData st) |}.

(** what a render of [st] gives for the weighted-average overlay *)
Definition renderAverage (showWeightedAverage : bool) (st : AppState)
  : option Overlay :=
  weightedAverageOverlay showWeightedAverage (stateAverage st) (stateData st).

(** what React makes of a child [{a && b && (<g>...</g>)}]: nothing for
    [false], [null] and [undefined], a text node for a number, the
    element otherwise *)
Inductive Child (A : Type) : Type :=
| Nothing
| Text (n : num)
| Element (a : A).

Arguments Nothing {A}.
Arguments Text {A} n.
Arguments Element {A} a.

(** [showGoldPrice && goldPrice && (<g>...</g>)]; [goldPrice] is [null]
    until the price has been fetched, and a price that is [0] or NaN is
    itself the value of the expression *)
Definition goldPriceOverlay (showGoldPrice : bool) (goldPrice : option num)
  (data : list Item) : Child Overlay :=
  if negb showGoldPrice then Nothing
  else
    match goldPrice with
    | Some gp =>
        if truthy gp then Element (overlayAt gp (maxCost data)) else Text gp
    | None => Nothing
    end.

(** [Array.prototype.map] with the index, for a callback that cannot
    throw *)
Fixpoint mapi {A B : Type} (f : A -> nat -> B) (i : nat) (l : list A) : list B :=
  match l with
  | [] => []
  | a :: t => f a i :: mapi f (S i) t
  end.

(** the two [<text>] elements of a highlighted record: the name under the
    axis and the cost over the bar, both at the same [x] *)
Record Label : Type := {
  labelKey : nat;
  labelName : string;
  labelX : num;
  labelNameY : num;
  labelCost : num;
  labelCostY : num
}.

(** [highlightedLabels] *)
Definition highlightedLabels (data : list Item) : list Label :=
  let total := totalProduction data in
  let mc := maxCost data in
  mapi (fun l index =>
          let it := item l in
          let x := xOf (cumulativeProduction l) total in
          let y := yOf (cost it) mc in
          {| labelKey := index;
             labelName := name it;
             labelX := x;
             labelNameY := add (sub SVG_HEIGHT (bottom MARGIN)) (ofZ 40);
             labelCost := cost it;
             labelCostY := sub y (ofZ 10) |})
       0 (filter (fun l => highlight (item l)) (cumulativeData data)).

(** the three counts at the end of [debugText]: [rows.length],
    [parsedData.length] and [rows.length - 1 - parsedData.length] *)
Record DebugCounts : Type := {
  totalRows : Z;
  parsedPoints : Z;
  filteredOut : Z
}.

Definition debugCounts (text : string) : outcome DebugCounts :=
  parsed <- parsedData text ;;
  let nrows := Z.of_nat (List.length (rows text)) in
  let nparsed := Z.of_nat (List.length parsed) in
  Ok {| totalRows := nrows;
        parsedPoints := nparsed;
        filteredOut := (nrows - 1 - nparsed)%Z |}.

(* ------------------------------------------------------------------ *)
(** ** Notions used by the statements *)

(** whether a row, once mapped, passes the filter on [production] and
    [cost] *)
Definition rowPositive (row : option (list string)) : bool :=
  match mapRow row 0 with
  | Ok it => positiveItem it
  | _ => false
  end.

(** [item.cost === c] *)
Definition sameCost (c : num) (it : Item) : bool := eqb (cost it) c.

(** [a.cost <= b.cost] *)
Definition costLe (a b : Item) : Prop := le (cost a) (cost b) = true.

(** [s] between double quotes *)
Definition quoted (s : string) : string :=
  String dquote (s ++ String dquote EmptyString).

(** the sum of a list of numbers, added from left to right *)
Definition sum (l : list num) : num := fold_left add l zero.

(** the productions of the records *)
Definition productions (data : list Item) : list num := map production data.

(** the index [floor(n * a / b)] of a quantile in [n] sorted costs *)
Definition quartileIndex (n : nat) (a : Z) (b : BinNums.positive) : nat :=
  Z.to_nat (Z.of_nat n * a / Zpos b).

(** [a <= b] on numbers *)
Definition numLe (a b : num) : Prop := le a b = true.

(** the products [cost * production] of the records *)
Definition weightedTerms (data : list Item) : list num :=
  map (fun it => mul (cost it) (production it)) data.

(** NaN, or a finite value equal to [0] *)
Definition nanOrZero (a : num) : Prop := a = NaN \/ eqb a zero = true.

(** the lines of a text, joined by line feeds *)
Fixpoint joinLines (ls : list string) : string :=
  match ls with
  | [] => EmptyString
  | [l] => l
  | l :: t => (l ++ String newline (joinLines t))%string
  end.

(** the three rows of the example of the specification, then a row with
    no production *)
Definition sampleCsv : string :=
  joinLines ["name,production,cost,highlight"; "A,100,10,0"; "B,200,20,1";
             "C,50,5,0"; "E,0,7,0"]%string.

Definition sampleData : list Item :=
  [ mkItem "C" (Fin 50) (Fin 5) false 2;
    mkItem "A" (Fin 100) (Fin 10) false 0;
    mkItem "B" (Fin 200) (Fin 20) true 1 ].

(** a text that ends with a line feed, so that its last row is the empty
    line, and a text with a row of three fields among the others *)
Definition blankEndCsv : string :=
  joinLines ["name,production,cost,highlight"; "A,100,10,0"; "E,0,7,0";
             "B,200,20,1"; EmptyString]%string.

Definition shortRowCsv : string :=
  joinLines ["name,production,cost,highlight"; "A,100,10,0"; "D,3,4";
             "B,200,20,1"]%string.



(** a row whose cost is between double quotes, and the same row with the
    production between double quotes instead *)
Definition quotedCostRow : string :=
  ("A,100," ++ quoted "12.5" ++ ",0")%string.

Definition quotedProductionRow : string :=
  ("A," ++ quoted "100" ++ ",12.5,0")%string.

Definition quotedCostCsv : string :=
  joinLines ["name,production,cost,highlight"%string; quotedCostRow].

Definition quotedProductionCsv : string :=
  joinLines ["name,production,cost,highlight"%string; quotedProductionRow].

(* ------------------------------------------------------------------ *)
(** ** Notions used by the further properties *)

(** a string of plain characters: no double quote, no comma *)
Fixpoint allPlain (s : string) : bool :=
  match s with
  | EmptyString => true
  | String c t => isPlain c && allPlain t
  end.

(** a string whose last character is a double quote *)
Fixpoint endsWithQuote (s : string) : bool :=
  match s with
  | EmptyString => false
  | String c EmptyString => Ascii.eqb c dquote
  | String _ t => endsWithQuote t
  end.

(** a field that is a run of plain characters, at least one *)
Definition plainField (s : string) : bool :=
  match s with
  | EmptyString => false
  | String _ _ => allPlain s
  end.

(** a field that opens with a double quote and closes with another one *)
Definition quotedField (s : string) : bool :=
  match s with
  | EmptyString => false
  | String c t => Ascii.eqb c dquote && endsWithQuote t
  end.

(** a string without a line feed *)
Fixpoint noNewline (s : string) : bool :=
  match s with
  | EmptyString => true
  | String c t => negb (Ascii.eqb c newline) && noNewline t
  end.

(** a string without a double quote *)
Fixpoint noQuote (s : string) : bool :=
  match s with
  | EmptyString => true
  | String c t => negb (Ascii.eqb c dquote) && noQuote t
  end.

(** the first and the last character of a string are not white space *)
Definition startsWithSpace (s : string) : bool :=
  match s with
  | EmptyString => false
  | String c _ => isSpace c
  end.

Fixpoint endsWithSpace (s : string) : bool :=
  match s with
  | EmptyString => false
  | String c EmptyString => isSpace c
  | String _ t => endsWithSpace t
  end.

(** the number of line feeds of a text *)
Fixpoint countNewlines (s : string) : nat :=
  match s with
  | EmptyString => 0%nat
  | String c t => ((if Ascii.eqb c newline then 1 else 0) + countNewlines t)%nat
  end.

(** [a] and [b] are the same number *)
Definition numEq (a b : num) : Prop := eqb a b = true.

(** the share of the plot width of a record:
    [(production / totalProduction) * chartWidth] *)
Definition slot (data : list Item) (it : Item) : num :=
  mul (div (production it) (totalProduction data)) chartWidth.

(** the bottom and the right edge of the plot *)
Definition plotBottom : num := sub SVG_HEIGHT (bottom MARGIN).

(** the largest [maxCost] for which the array of the cost ticks can be
    built: [500 * (2^32 - 2)] *)
Definition maxCostLimit : num := ofZ 2147483647000.

(** a string of decimal digits *)
Fixpoint allDigits (s : string) : bool :=
  match s with
  | EmptyString => true
  | String c t => isDigit c && allDigits t
  end.

(** the natural number that a string of digits writes *)
Definition digitsNumber (s : string) : num :=
  ofZ (digitsVal (list_ascii_of_string s)).

(* ------------------------------------------------------------------ *)
(** * Facts about numbers *)

Module NumFacts.

Lemma Qle_bool_false (x y : Q) : Qle_bool x y = false <-> (y < x)%Q.
Proof.
  split; intro H.
  - apply Qnot_le_lt. intro L. apply Qle_bool_iff in L. congruence.
  - destruct (Qle_bool x y) eqn:E; [|reflexivity].
    apply Qle_bool_iff in E. lra.
Qed.

Lemma Qlt_bool_iff (x y : Q) : Qlt_bool x y = true <-> (x < y)%Q.
Proof. unfold Qlt_bool. rewrite negb_true_iff. apply Qle_bool_false. Qed.

Lemma Qlt_bool_false (x y : Q) : Qlt_bool x y = false <-> (y <= x)%Q.
Proof. unfold Qlt_bool. rewrite negb_false_iff. apply Qle_bool_iff. Qed.

Lemma Qeq_bool_false (x y : Q) : Qeq_bool x y = false <-> ~ (x == y)%Q.
Proof.
  split; [apply Qeq_bool_neq|].
  intro H. destruct (Qeq_bool x y) eqn:E; [|reflexivity].
  apply Qeq_bool_iff in E. contradiction.
Qed.

(** turn the boolean tests on rationals of the context and of the goal
    into propositions *)
Ltac qprop :=
  repeat match goal with
         | H : Qle_bool _ _ = true |- _ => apply Qle_bool_iff in H
         | H : Qle_bool _ _ = false |- _ => apply Qle_bool_false in H
         | H : Qlt_bool _ _ = true |- _ => apply Qlt_bool_iff in H
         | H : Qlt_bool _ _ = false |- _ => apply Qlt_bool_false in H
         | H : Qeq_bool _ _ = true |- _ => apply Qeq_bool_iff in H
         | H : Qeq_bool _ _ = false |- _ => apply Qeq_bool_false in H
         | |- Qle_bool _ _ = true => apply Qle_bool_iff
         | |- Qle_bool _ _ = false => apply Qle_bool_false
         | |- Qlt_bool _ _ = true => apply Qlt_bool_iff
         | |- Qlt_bool _ _ = false => apply Qlt_bool_false
         | |- Qeq_bool _ _ = true => apply Qeq_bool_iff
         | |- Qeq_bool _ _ = false => apply Qeq_bool_false
         end.

(** case analysis on every number in sight, then linear arithmetic *)
Ltac num_solve :=
  repeat match goal with a : num |- _ => destruct a end;
  cbn in *; try discriminate; try reflexivity; qprop; try lra.

Lemma le_refl (a : num) : isNaN a = false -> le a a = true.
Proof. intro H. num_solve. Qed.

Lemma le_trans (a b c : num) : le a b = true -> le b c = true -> le a c = true.
Proof. intros H1 H2. num_solve. Qed.

Lemma lt_le (a b : num) : lt a b = true -> le a b = true.
Proof. intro H. num_solve. Qed.

Lemma gt_zero_not_nan (a : num) : gt a zero = true -> isNaN a = false.
Proof. unfold gt, zero. intro H. num_solve. Qed.

Lemma gt_zero_truthy (a : num) : gt a zero = true -> truthy a = true.
Proof.
  unfold gt, zero. intro H. destruct a; cbn in *; try discriminate; auto.
  apply negb_true_iff. qprop. lra.
Qed.

Lemma gt_zero_orZero (a : num) : gt a zero = true -> orZero a = a.
Proof. intro H. unfold orZero. now rewrite gt_zero_truthy. Qed.

(** the comparator [a - b] on numbers that are not NaN: [a] is left
    before [b] only when [a <= b] *)
Lemma sub_not_gt_le (a b : num) :
  isNaN a = false -> isNaN b = false ->
  gt (sub a b) zero = false -> le a b = true.
Proof. unfold gt, sub, zero. intros Ha Hb H. num_solve. Qed.

(** adding a value that is at least [0] does not decrease a value that
    is at least [0] *)
Lemma add_nonneg_le (c p : num) :
  le zero c = true -> le zero p = true ->
  le c (add c p) = true /\ le zero (add c p) = true.
Proof. unfold zero. intros Hc Hp. split; num_solve. Qed.

Lemma add_pos_gt (c p : num) :
  le zero c = true -> gt p zero = true -> gt (add c p) zero = true.
Proof. unfold zero, gt. intros Hc Hp. num_solve. Qed.

Lemma max_ge_l (a b : num) : le zero a = true -> gt b zero = true ->
  gt (max a b) zero = true.
Proof.
  unfold zero, gt, max. intros Ha Hb.
  destruct a, b; cbn in *; try discriminate; try reflexivity.
  destruct (Qlt_bool q q0) eqn:E; cbn; qprop; lra.
Qed.

Lemma max_pos_l (a b : num) : gt a zero = true -> gt b zero = true ->
  gt (max a b) zero = true.
Proof. intros Ha Hb. apply max_ge_l; [|assumption]. apply lt_le, Ha. Qed.

Lemma gt_zero_neq (a : num) : gt a zero = true -> eqb a zero = false.
Proof. unfold gt, zero. intro H. num_solve. Qed.

End NumFacts.

Import NumFacts.

(* ------------------------------------------------------------------ *)
(** * Facts about [arraySort] *)

Section ArraySortFacts.

Variable A : Type.
Variable cmp : A -> A -> num.

Lemma insert_perm (x : A) (l : list A) : Permutation (insert cmp x l) (x :: l).
Proof.
  induction l as [|y t IH]; cbn.
  - apply Permutation_refl.
  - destruct (after cmp x y).
    + apply perm_trans with (y :: x :: t).
      * apply perm_skip, IH.
      * apply perm_swap.
    + apply Permutation_refl.
Qed.

Lemma arraySort_perm (l : list A) : Permutation (arraySort cmp l) l.
Proof.
  induction l as [|x t IH]; cbn.
  - apply perm_nil.
  - apply perm_trans with (x :: arraySort cmp t).
    + apply insert_perm.
    + apply perm_skip, IH.
Qed.

Lemma arraySort_length (l : list A) :
  List.length (arraySort cmp l) = List.length l.
Proof. apply Permutation_length, arraySort_perm. Qed.

Lemma arraySort_Forall (P : A -> Prop) (l : list A) :
  Forall P l -> Forall P (arraySort cmp l).
Proof.
  intro H. apply Permutation_Forall with l; [|assumption].
  apply Permutation_sym, arraySort_perm.
Qed.

Lemma arraySort_In (x : A) (l : list A) : In x (arraySort cmp l) <-> In x l.
Proof.
  split; apply Permutation_in;
    [apply arraySort_perm | apply Permutation_sym, arraySort_perm].
Qed.

(** *** Order *)

(** the comparator never asks for [a] after [b] and [b] after [a] *)
Hypothesis after_asym : forall a b, after cmp a b = true -> after cmp b a = false.

Lemma insert_HdRel (a x : A) (l : list A) :
  inOrder cmp a x -> HdRel (inOrder cmp) a l -> HdRel (inOrder cmp) a (insert cmp x l).
Proof.
  intros Hax Hl. destruct l as [|y t]; cbn.
  - constructor. exact Hax.
  - destruct (after cmp x y); constructor.
    + inversion Hl; assumption.
    + exact Hax.
Qed.

Lemma insert_Sorted (x : A) (l : list A) :
  Sorted (inOrder cmp) l -> Sorted (inOrder cmp) (insert cmp x l).
Proof.
  induction l as [|y t IH]; intro Hs; cbn.
  - repeat constructor.
  - destruct (after cmp x y) eqn:E.
    + inversion Hs as [|? ? Ht Hhd]; subst. constructor.
      * apply IH, Ht.
      * apply insert_HdRel; [|assumption]. apply after_asym, E.
    + constructor; [assumption|]. constructor. exact E.
Qed.

Lemma arraySort_Sorted (l : list A) : Sorted (inOrder cmp) (arraySort cmp l).
Proof.
  induction l as [|x t IH]; cbn.
  - constructor.
  - apply insert_Sorted, IH.
Qed.

(** *** Stability *)

(** [p] picks elements no two of which the comparator tells apart *)
Variable p : A -> bool.
Hypothesis p_class : forall a b, after cmp a b = true -> p a = true -> p b = false.

Lemma insert_filter (x : A) (l : list A) :
  filter p (insert cmp x l) = filter p (x :: l).
Proof.
  induction l as [|y t IH]; [reflexivity|].
  cbn [insert]. destruct (after cmp x y) eqn:E; [|reflexivity].
  cbn [filter]. rewrite IH. cbn [filter].
  destruct (p x) eqn:Px; [|reflexivity].
  assert (Py : p y = false) by (eapply p_class; eassumption).
  now rewrite Py.
Qed.

Lemma arraySort_filter (l : list A) : filter p (arraySort cmp l) = filter p l.
Proof.
  induction l as [|x t IH]; [reflexivity|].
  cbn [arraySort]. rewrite insert_filter. cbn [filter]. now rewrite IH.
Qed.

End ArraySortFacts.

(** a sorted list stays sorted under a weaker relation that holds between
    the elements that satisfy [P] *)
Lemma Sorted_weaken (A : Type) (P : A -> Prop) (R R' : A -> A -> Prop) :
  (forall a b, P a -> P b -> R a b -> R' a b) ->
  forall l, Forall P l -> Sorted R l -> Sorted R' l.
Proof.
  intros HR l HP Hs. induction Hs as [|a l Hs IH Hhd]; [constructor|].
  inversion HP as [|? ? Pa Pl]; subst. constructor.
  - apply IH, Pl.
  - destruct Hhd as [|b l Rab]; constructor.
    inversion Pl; subst. apply HR; assumption.
Qed.

(** in a strongly sorted list an earlier element is related to a later one *)
Lemma StronglySorted_nth (A : Type) (R : A -> A -> Prop) (l : list A) :
  StronglySorted R l ->
  forall i j a b, (i < j)%nat ->
    nth_error l i = Some a -> nth_error l j = Some b -> R a b.
Proof.
  induction 1 as [|x l Hs IH Hall]; intros i j a b Hij Hi Hj.
  - destruct i; discriminate.
  - destruct j as [|j]; [lia|]. cbn in Hj. destruct i as [|i]; cbn in Hi.
    + injection Hi as <-. rewrite Forall_forall in Hall.
      apply Hall. eapply nth_error_In, Hj.
    + apply (IH i j); [lia|assumption..].
Qed.

(* ------------------------------------------------------------------ *)
(** * The parser *)

Lemma filter_length_map (A B : Type) (p : A -> bool) (q : B -> bool)
  (l : list A) (l' : list B) :
  map p l = map q l' -> List.length (filter p l) = List.length (filter q l').
Proof.
  revert l'. induction l as [|a t IH]; intros [|b t'] H; try discriminate.
  - reflexivity.
  - cbn in H. injection H as Hab Ht. cbn. rewrite Hab.
    destruct (q b); cbn; auto.
Qed.

(** a row that passed [row && row.length >= 4] is mapped without a
    TypeError, and the index only sets [id] *)
Lemma mapRow_ok (row : option (list string)) (i : nat) :
  rowOk row = true ->
  exists it, mapRow row i = Ok it /\ positiveItem it = rowPositive row.
Proof.
  destruct row as [[|f0 [|f1 [|f2 [|f3 t]]]]|]; cbn; try discriminate.
  intros _. eexists. split; reflexivity.
Qed.

Lemma mapiM_mapRow_ok (l : list (option (list string))) :
  Forall (fun row => rowOk row = true) l ->
  forall i, exists mapped,
    mapiM mapRow i l = Ok mapped /\ map positiveItem mapped = map rowPositive l.
Proof.
  induction 1 as [|row t Hrow Ht IH]; intro i.
  - exists []. split; reflexivity.
  - destruct (mapRow_ok row i Hrow) as (it & Hit & Hpos).
    destruct (IH (S i)) as (mapped & Hm & Hmap).
    exists (it :: mapped). cbn [mapiM]. rewrite Hit. cbn [bind].
    rewrite Hm. cbn. rewrite Hpos, Hmap. split; reflexivity.
Qed.

Lemma filter_rowOk_Forall (l : list (option (list string))) :
  Forall (fun row => rowOk row = true) (filter rowOk l).
Proof. apply Forall_forall. intros row H. apply filter_In in H. tauto. Qed.

(** [parsedData] is always computed, and holds one item per row that
    has four fields and positive mapped [production] and [cost] *)
Lemma parsedData_ok (text : string) :
  exists parsed,
    parsedData text = Ok parsed /\
    Forall (fun it => positiveItem it = true) parsed /\
    List.length parsed =
      List.length (filter rowPositive (filter rowOk (dataRows text))).
Proof.
  unfold parsedData.
  destruct (mapiM_mapRow_ok (filter_rowOk_Forall (dataRows text)) 0)
    as (mapped & Hm & Hmap).
  rewrite Hm. cbn [bind]. eexists. split; [reflexivity|]. split.
  - apply Forall_forall. intros it H. apply filter_In in H. tauto.
  - apply filter_length_map, Hmap.
Qed.

(** the comparator on costs *)
Lemma byCost_asym (a b : Item) :
  after byCost a b = true -> after byCost b a = false.
Proof.
  unfold after, byCost, gt, sub, zero.
  destruct (cost a), (cost b); cbn; try discriminate; try reflexivity.
  intro H. qprop. lra.
Qed.

Lemma byCost_class (c : num) (a b : Item) :
  after byCost a b = true -> sameCost c a = true -> sameCost c b = false.
Proof.
  unfold after, byCost, sameCost, gt, sub, zero.
  destruct (cost a), (cost b), c; cbn; try discriminate; try reflexivity.
  intros H1 H2. qprop. lra.
Qed.

Lemma positive_cost_not_nan (it : Item) :
  positiveItem it = true -> isNaN (cost it) = false.
Proof.
  unfold positiveItem. intro H. apply andb_prop in H.
  apply gt_zero_not_nan. tauto.
Qed.

Lemma arraySort_byCost_sorted (l : list Item) :
  Forall (fun it => positiveItem it = true) l ->
  StronglySorted costLe (arraySort byCost l).
Proof.
  intro Hpos. apply Sorted_StronglySorted.
  - intros a b c. apply le_trans.
  - apply Sorted_weaken
      with (P := fun it => positiveItem it = true) (R := inOrder byCost).
    + intros a b Ha Hb Hab. apply sub_not_gt_le;
        auto using positive_cost_not_nan.
    + apply arraySort_Forall, Hpos.
    + apply arraySort_Sorted. apply byCost_asym.
Qed.

(* ------------------------------------------------------------------ *)
(** * The cumulative layout *)

Lemma fold_left_add_map (A : Type) (f : A -> num) (l : list A) (a : num) :
  fold_left (fun s x => add s (f x)) l a = fold_left add (map f l) a.
Proof. revert a. induction l as [|x t IH]; intro a; cbn; auto. Qed.

Lemma layoutFrom_items (data : list Item) (st : Acc) :
  map item (fst (layoutFrom st data)) = data.
Proof.
  revert st. induction data as [|it rest IH]; intro st; cbn; [reflexivity|].
  specialize (IH {| cumulative := add (cumulative st) (production it);
                    maxCostAcc := max (maxCostAcc st) (cost it) |}).
  destruct (layoutFrom _ rest) as [out final]. cbn in *. now rewrite IH.
Qed.

Lemma layoutFrom_nth (data : list Item) (st : Acc) (i : nat) (l : LayoutItem) :
  nth_error (fst (layoutFrom st data)) i = Some l ->
  cumulativeProduction l =
    fold_left add (productions (firstn i data)) (cumulative st).
Proof.
  revert st i. induction data as [|it rest IH]; intros st i H.
  - destruct i; discriminate.
  - cbn in H.
    specialize (IH {| cumulative := add (cumulative st) (production it);
                      maxCostAcc := max (maxCostAcc st) (cost it) |}).
    destruct (layoutFrom _ rest) as [out final]. cbn in H, IH.
    destruct i as [|i]; cbn in H.
    + injection H as <-. reflexivity.
    + cbn. apply IH, H.
Qed.

Lemma layoutFrom_final (data : list Item) (st : Acc) :
  cumulative (snd (layoutFrom st data)) =
    fold_left add (productions data) (cumulative st) /\
  maxCostAcc (snd (layoutFrom st data)) =
    fold_left max (map cost data) (maxCostAcc st).
Proof.
  revert st. induction data as [|it rest IH]; intro st; cbn; [auto|].
  specialize (IH {| cumulative := add (cumulative st) (production it);
                    maxCostAcc := max (maxCostAcc st) (cost it) |}).
  destruct (layoutFrom _ rest) as [out final]. cbn in *. exact IH.
Qed.

Lemma cumulativeData_items (data : list Item) :
  map item (cumulativeData data) = data.
Proof. apply layoutFrom_items. Qed.

Lemma cumulativeData_nth (data : list Item) (i : nat) (l : LayoutItem) :
  nth_error (cumulativeData data) i = Some l ->
  cumulativeProduction l = sum (productions (firstn i data)).
Proof. apply layoutFrom_nth. Qed.

Lemma totalProduction_sum (data : list Item) :
  totalProduction data = sum (productions data).
Proof. apply (layoutFrom_final data). Qed.

Lemma maxCost_fold (data : list Item) :
  maxCost data = fold_left max (map cost data) zero.
Proof. apply (layoutFrom_final data). Qed.

(** a running sum of values that are at least [0] does not decrease *)
Lemma fold_add_nonneg (ps : list num) (a : num) :
  Forall (fun p => le zero p = true) ps -> le zero a = true ->
  le a (fold_left add ps a) = true.
Proof.
  intro H. revert a. induction H as [|p t Hp Ht IH]; intros a Ha; cbn.
  - apply le_refl. destruct a; cbn in *; congruence.
  - destruct (add_nonneg_le a p Ha Hp) as [H1 H2].
    eapply le_trans; [exact H1|]. apply IH, H2.
Qed.

Lemma productions_nonneg (data : list Item) :
  Forall (fun it => positiveItem it = true) data ->
  Forall (fun p => le zero p = true) (productions data).
Proof.
  intro H. unfold productions. apply Forall_map.
  eapply Forall_impl; [|exact H]. intros it Hit.
  apply andb_prop in Hit. apply lt_le. apply Hit.
Qed.

Lemma Forall_firstn (A : Type) (P : A -> Prop) (n : nat) (l : list A) :
  Forall P l -> Forall P (firstn n l).
Proof.
  intro H. revert n. induction H as [|x t Hx Ht IH]; intros [|n]; cbn;
    constructor; auto.
Qed.

Lemma Forall_skipn (A : Type) (P : A -> Prop) (n : nat) (l : list A) :
  Forall P l -> Forall P (skipn n l).
Proof.
  intro H. revert n. induction H as [|x t Hx Ht IH]; intros [|n]; cbn;
    auto.
Qed.

Lemma firstn_le_split (A : Type) (i j : nat) (l : list A) :
  (i <= j)%nat -> firstn j l = firstn i l ++ firstn (j - i) (skipn i l).
Proof.
  revert j l. induction i as [|i IH]; intros j l Hij.
  - now rewrite Nat.sub_0_r.
  - destruct j as [|j]; [lia|]. destruct l as [|x t]; cbn.
    + now destruct (j - i)%nat.
    + f_equal. apply IH. lia.
Qed.

Lemma sum_nonneg (ps : list num) :
  Forall (fun p => le zero p = true) ps -> le zero (sum ps) = true.
Proof. intro H. apply fold_add_nonneg; [exact H | reflexivity]. Qed.

Lemma cumulative_monotone (data : list Item) (i j : nat) :
  Forall (fun it => positiveItem it = true) data -> (i <= j)%nat ->
  le (sum (productions (firstn i data))) (sum (productions (firstn j data)))
    = true.
Proof.
  intros Hpos Hij. rewrite (firstn_le_split data Hij).
  unfold productions, sum. rewrite map_app, fold_left_app.
  apply fold_add_nonneg.
  - apply productions_nonneg, Forall_firstn, Forall_skipn, Hpos.
  - apply sum_nonneg, productions_nonneg, Forall_firstn, Hpos.
Qed.

(* ------------------------------------------------------------------ *)
(** * Totals *)

Lemma lt_le_trans (a b c : num) : lt a b = true -> le b c = true -> lt a c = true.
Proof. intros H1 H2. num_solve. Qed.

Lemma fold_max_pos (cs : list num) (a : num) :
  Forall (fun c => gt c zero = true) cs -> gt a zero = true ->
  gt (fold_left max cs a) zero = true.
Proof.
  intro H. revert a. induction H as [|c t Hc Ht IH]; intros a Ha; cbn.
  - exact Ha.
  - apply IH, max_pos_l; assumption.
Qed.

Lemma positive_production (it : Item) :
  positiveItem it = true -> gt (production it) zero = true.
Proof. intro H. apply andb_prop in H. apply H. Qed.

Lemma positive_cost (it : Item) :
  positiveItem it = true -> gt (cost it) zero = true.
Proof. intro H. apply andb_prop in H. apply H. Qed.

(** with at least one record, all of them positive, the two divisors of
    the geometry are positive *)
Lemma totalProduction_pos (data : list Item) :
  data <> [] -> Forall (fun it => positiveItem it = true) data ->
  gt (totalProduction data) zero = true.
Proof.
  intros Hne Hpos. rewrite totalProduction_sum.
  destruct data as [|it rest]; [congruence|].
  inversion Hpos as [|? ? Hit Hrest]; subst.
  unfold sum, productions. cbn [map fold_left].
  unfold gt. eapply lt_le_trans.
  - apply (add_pos_gt zero (production it)); [reflexivity|].
    apply positive_production, Hit.
  - apply fold_add_nonneg.
    + apply productions_nonneg, Hrest.
    + apply lt_le. apply (add_pos_gt zero (production it)); [reflexivity|].
      apply positive_production, Hit.
Qed.

Lemma maxCost_pos (data : list Item) :
  data <> [] -> Forall (fun it => positiveItem it = true) data ->
  gt (maxCost data) zero = true.
Proof.
  intros Hne Hpos. rewrite maxCost_fold.
  destruct data as [|it rest]; [congruence|].
  inversion Hpos as [|? ? Hit Hrest]; subst. cbn [map fold_left].
  apply fold_max_pos.
  - apply Forall_map. eapply Forall_impl; [|exact Hrest].
    intros a. apply positive_cost.
  - apply max_ge_l; [reflexivity|]. apply positive_cost, Hit.
Qed.

(* ------------------------------------------------------------------ *)
(** * Quartiles *)

Lemma sub_asym (a b : num) : after sub a b = true -> after sub b a = false.
Proof.
  unfold after, gt, sub, zero.
  destruct a, b; cbn; try discriminate; try reflexivity.
  intro H. qprop. lra.
Qed.

Lemma sortedCosts_eq (data : list Item) :
  sortedCosts data = arraySort sub (map cost data).
Proof.
  unfold sortedCosts. f_equal.
  rewrite <- (cumulativeData_items data) at 2. now rewrite map_map.
Qed.

Lemma sortedCosts_length (data : list Item) :
  List.length (sortedCosts data) = List.length data.
Proof. now rewrite sortedCosts_eq, arraySort_length, length_map. Qed.


Lemma sortedCosts_pos (data : list Item) :
  Forall (fun it => positiveItem it = true) data ->
  Forall (fun c => gt c zero = true) (sortedCosts data).
Proof.
  intro H. rewrite sortedCosts_eq. apply arraySort_Forall, Forall_map.
  eapply Forall_impl; [|exact H]. intro a. apply positive_cost.
Qed.

Lemma sortedCosts_sorted (data : list Item) :
  Forall (fun it => positiveItem it = true) data ->
  StronglySorted numLe (sortedCosts data).
Proof.
  intro Hpos. apply Sorted_StronglySorted.
  - intros a b c. apply le_trans.
  - apply Sorted_weaken
      with (P := fun c => gt c zero = true) (R := inOrder sub).
    + intros a b Ha Hb Hab. apply sub_not_gt_le;
        auto using gt_zero_not_nan.
    + apply sortedCosts_pos, Hpos.
    + rewrite sortedCosts_eq. apply arraySort_Sorted. apply sub_asym.
Qed.

Lemma index_ofZ (arr : list num) (z : Z) :
  (0 <= z)%Z -> index arr (ofZ z) = nth_error arr (Z.to_nat z).
Proof.
  intro Hz. unfold index, ofZ. rewrite Qfloor_Z.
  replace (Qeq_bool (inject_Z z) (inject_Z z)) with true
    by (symmetry; apply Qeq_bool_iff; reflexivity).
  replace (Qle_bool 0 (inject_Z z)) with true; [reflexivity|].
  symmetry. apply Qle_bool_iff. unfold Qle. cbn. lia.
Qed.

(** [Math.floor(len * (a/b))] is the quotient of [len * a] by [b] *)
Lemma floor_mul_ratio (n : nat) (a : Z) (b : BinNums.positive) :
  floor (mul (ofNat n) (Fin (a # b))) = ofZ (Z.of_nat n * a / Zpos b).
Proof. reflexivity. Qed.

(** on positive costs a quantile is the element at its index *)
Lemma quantile_nth (s : list num) (a : Z) (b : BinNums.positive) (v : num) :
  (0 <= a)%Z ->
  nth_error s (Z.to_nat (Z.of_nat (List.length s) * a / Zpos b)) = Some v ->
  gt v zero = true ->
  quantile s (a # b) = v.
Proof.
  intros Ha Hn Hv. unfold quantile. rewrite floor_mul_ratio, index_ofZ.
  - rewrite Hn. cbn. apply gt_zero_orZero, Hv.
  - apply Z.div_pos; lia.
Qed.

Lemma sorted_nth_le (s : list num) (i j : nat) (a b : num) :
  StronglySorted numLe s -> Forall (fun c => gt c zero = true) s ->
  (i <= j)%nat -> nth_error s i = Some a -> nth_error s j = Some b ->
  le a b = true.
Proof.
  intros Hs Hpos Hij Hi Hj.
  destruct (Nat.eq_dec i j) as [->|Hne].
  - rewrite Hi in Hj. injection Hj as <-. apply le_refl, gt_zero_not_nan.
    rewrite Forall_forall in Hpos. apply Hpos. eapply nth_error_In, Hi.
  - apply (StronglySorted_nth Hs) with (i := i) (j := j); [lia|assumption..].
Qed.

(** the three indices, for a length [n >= 1] *)
Lemma quartile_indices (n : nat) :
  (1 <= n)%nat ->
  (quartileIndex n 1 4 <= quartileIndex n 1 2 /\
   quartileIndex n 1 2 <= quartileIndex n 3 4 /\
   quartileIndex n 3 4 < n)%nat.
Proof.
  intro Hn. unfold quartileIndex. zify.
  Z.to_euclidean_division_equations. lia.
Qed.

(** the three quartiles of positive costs are the elements of the sorted
    costs at the indices [floor(len * 0.25)], [floor(len * 0.5)] and
    [floor(len * 0.75)] *)
Lemma quartiles_values (data : list Item) :
  data <> [] -> Forall (fun it => positiveItem it = true) data ->
  nth_error (sortedCosts data) (quartileIndex (List.length data) 1 4)
    = Some (q1 (quartiles data)) /\
  nth_error (sortedCosts data) (quartileIndex (List.length data) 1 2)
    = Some (median (quartiles data)) /\
  nth_error (sortedCosts data) (quartileIndex (List.length data) 3 4)
    = Some (q3 (quartiles data)).
Proof.
  intros Hne Hpos.
  assert (Hlen : (1 <= List.length data)%nat).
  { destruct data; [congruence|cbn; lia]. }
  destruct (quartile_indices Hlen) as (H12 & H23 & H3).
  pose proof (sortedCosts_pos Hpos) as Hs. rewrite Forall_forall in Hs.
  pose proof (sortedCosts_length data) as Hsl.
  assert (Hq : forall (a : Z) (b : BinNums.positive),
             (0 <= a)%Z ->
             (quartileIndex (List.length data) a b < List.length data)%nat ->
             nth_error (sortedCosts data) (quartileIndex (List.length data) a b)
               = Some (quantile (sortedCosts data) (a # b))).
  { intros a b Ha Hk.
    destruct (nth_error (sortedCosts data) _) as [v|] eqn:E.
    - f_equal. symmetry. apply quantile_nth; [assumption| |].
      + rewrite Hsl. exact E.
      + apply Hs. eapply nth_error_In, E.
    - apply nth_error_None in E. lia. }
  unfold quartiles; cbn [q1 median q3].
  repeat split; apply Hq; lia.
Qed.

(* ------------------------------------------------------------------ *)
(** * The lookup of a quartile marker *)


(* ------------------------------------------------------------------ *)
(** * The loop of [xAxisTicks] *)


(* ------------------------------------------------------------------ *)
(** * The weighted average *)

Lemma weightedAverageCost_sums (data : list Item) :
  weightedAverageCost data =
    div (sum (weightedTerms data)) (sum (productions data)).
Proof.
  unfold weightedAverageCost, sum, weightedTerms, productions.
  rewrite (fold_left_add_map production).
  now rewrite (fold_left_add_map (fun it => mul (cost it) (production it))).
Qed.

Lemma add_zero_parts (a p : num) :
  le zero a = true -> le zero p = true -> eqb (add a p) zero = true ->
  eqb a zero = true /\ eqb p zero = true.
Proof. unfold zero. intros Ha Hp H. split; num_solve. Qed.

(** a sum of values that are at least [0] is [0] only when all are *)
Lemma fold_add_zero (ps : list num) (a : num) :
  Forall (fun p => le zero p = true) ps -> le zero a = true ->
  eqb (fold_left add ps a) zero = true ->
  eqb a zero = true /\ Forall (fun p => eqb p zero = true) ps.
Proof.
  intro H. revert a. induction H as [|p t Hp Ht IH]; intros a Ha Hz; cbn in *.
  - auto.
  - destruct (add_nonneg_le a p Ha Hp) as [_ H2].
    destruct (IH _ H2 Hz) as [Hap Hall].
    destruct (add_zero_parts a p Ha Hp Hap) as [Haz Hpz]. auto.
Qed.

Lemma add_mul_nanOrZero (acc c p : num) :
  nanOrZero acc -> eqb p zero = true -> nanOrZero (add acc (mul c p)).
Proof.
  unfold nanOrZero, zero. intros [->|Hacc] Hp; [left; reflexivity|].
  destruct p as [q| | |]; try discriminate. cbn in Hp. apply Qeq_bool_iff in Hp.
  destruct acc as [a| | |]; try discriminate. cbn in Hacc.
  apply Qeq_bool_iff in Hacc.
  destruct c as [x| | |]; cbn.
  - right. apply Qeq_bool_iff. rewrite Hacc, Hp. ring.
  - left. apply Qeq_alt in Hp. rewrite Hp. reflexivity.
  - left. apply Qeq_alt in Hp. rewrite Hp. reflexivity.
  - left. reflexivity.
Qed.

Lemma fold_weighted_nanOrZero (data : list Item) (acc : num) :
  Forall (fun it => eqb (production it) zero = true) data -> nanOrZero acc ->
  nanOrZero (fold_left (fun s it => add s (mul (cost it) (production it)))
                       data acc).
Proof.
  intro H. revert acc. induction H as [|it t Hit Ht IH]; intros acc Hacc; cbn.
  - exact Hacc.
  - apply IH, add_mul_nanOrZero; assumption.
Qed.

Lemma div_nanOrZero (w t : num) :
  nanOrZero w -> eqb t zero = true -> div w t = NaN.
Proof.
  unfold nanOrZero, zero. intros [->|Hw] Ht; [reflexivity|].
  destruct w as [x| | |], t as [y| | |]; try discriminate. cbn in *.
  rewrite Ht. apply Qeq_bool_iff, Qeq_alt in Hw. now rewrite Hw.
Qed.

(** with no production at all the weighted average is NaN *)
Lemma weightedAverageCost_nan (data : list Item) :
  Forall (fun it => le zero (production it) = true) data ->
  eqb (totalProduction data) zero = true ->
  weightedAverageCost data = NaN.
Proof.
  intros Hnn Hz. rewrite totalProduction_sum in Hz.
  assert (Hall : Forall (fun p => eqb p zero = true) (productions data)).
  { assert (Hps : Forall (fun p => le zero p = true) (productions data))
      by apply Forall_map, Hnn.
    apply (@fold_add_zero (productions data) zero Hps);
      [reflexivity | exact Hz]. }
  unfold weightedAverageCost. apply div_nanOrZero.
  - apply fold_weighted_nanOrZero.
    + unfold productions in Hall. rewrite Forall_map in Hall. exact Hall.
    + right. reflexivity.
  - rewrite (fold_left_add_map production). exact Hz.
Qed.

(* ------------------------------------------------------------------ *)
(** * Running sums and rows *)


Lemma cumulativeData_item_nth (data : list Item) (i : nat) (l : LayoutItem) :
  nth_error (cumulativeData data) i = Some l ->
  nth_error data i = Some (item l).
Proof.
  intro H. rewrite <- (cumulativeData_items data) at 1.
  now rewrite nth_error_map, H.
Qed.



(** a running sum of values that are at least [0] is infinite as soon
    as one of them is *)
Lemma fold_add_inf (ps : list num) (a : num) :
  Forall (fun p => le zero p = true) ps -> le zero a = true ->
  a = PInf \/ In PInf ps -> fold_left add ps a = PInf.
Proof.
  intro H. revert a. induction H as [|p t Hp Ht IH]; intros a Ha Hinf; cbn.
  - destruct Hinf as [H|[]]. exact H.
  - apply IH; [apply (add_nonneg_le a p Ha Hp)|].
    destruct Hinf as [->|[->|Hin]]; [left|left|now right].
    + destruct p; cbn in Hp; try discriminate Hp; reflexivity.
    + destruct a; cbn in Ha; try discriminate Ha; reflexivity.
Qed.


(** the records mapped from a list of rows: their ids and their rows *)
Lemma mapiM_mapRow_nth (l : list (option (list string))) (i : nat)
  (mapped : list Item) :
  mapiM mapRow i l = Ok mapped ->
  map id mapped = seq i (List.length l) /\
  forall it, In it mapped ->
    exists row, nth_error l (id it - i) = Some row /\ mapRow row (id it) = Ok it.
Proof.
  revert i mapped. induction l as [|row t IH]; intros i mapped H.
  - injection H as <-. split; [reflexivity|]. intros it [].
  - cbn [mapiM] in H. destruct (mapRow row i) as [it0| |] eqn:E0;
      try discriminate. cbn [bind] in H.
    destruct (mapiM mapRow (S i) t) as [rest| |] eqn:Er; try discriminate.
    injection H as <-. destruct (IH _ _ Er) as [Hids Hrows].
    assert (Hid0 : id it0 = i).
    { destruct row as [[|f0 [|f1 fs]]|]; cbn in E0; try discriminate.
      injection E0 as <-. reflexivity. }
    split; [cbn; now rewrite Hid0, Hids|].
    intros it [<-|Hin].
    + exists row. rewrite Hid0, Nat.sub_diag. split; [reflexivity|exact E0].
    + destruct (Hrows it Hin) as (row' & Hn & Hm).
      assert (Hge : (S i <= id it)%nat).
      { assert (Hi : In (id it) (map id rest)) by now apply in_map.
        rewrite Hids in Hi. apply in_seq in Hi. lia. }
      exists row'. split; [|exact Hm].
      replace (id it - i)%nat with (S (id it - S i)) by lia. exact Hn.
Qed.

(* ------------------------------------------------------------------ *)
(** * Sample inputs *)

Example sampleCsv_parsed : handleFileUpload sampleCsv = Ok sampleData.
Proof. vm_compute. reflexivity. Qed.

Example sampleData_layout :
  map cumulativeProduction (cumulativeData sampleData)
    = [Fin 0; Fin 50; Fin 150] /\
  totalProduction sampleData = Fin 350 /\
  maxCost sampleData = Fin 20.
Proof. repeat split. Qed.

Example three_fields_dropped :
  handleFileUpload
    (joinLines ["name,production,cost,highlight"; "D,3,4"]%string) = Ok [].
Proof. vm_compute. reflexivity. Qed.

Example quartiles_empty : quartiles [] = {| q1 := zero; median := zero; q3 := zero |}.
Proof. reflexivity. Qed.

(* ------------------------------------------------------------------ *)
(** * The claims *)

(** C1. For every list of records with positive production and cost, the
    cumulative layout keeps the records in their order and gives each
    record, as [cumulativeProduction], the sum of the productions of the
    records before it, so [0] to the first one; these values do not
    decrease along the list; [totalProduction] is the sum of all the
    productions; the [cumulativeProduction] of the last record plus its
    production is [totalProduction]. *)
Theorem C1_cumulative_layout (data : list Item) :
  Forall (fun it => positiveItem it = true) data ->
  map item (cumulativeData data) = data /\
  (forall i l, nth_error (cumulativeData data) i = Some l ->
     cumulativeProduction l = sum (productions (firstn i data))) /\
  (forall l, nth_error (cumulativeData data) 0 = Some l ->
     cumulativeProduction l = zero) /\
  (forall i j li lj, (i <= j)%nat ->
     nth_error (cumulativeData data) i = Some li ->
     nth_error (cumulativeData data) j = Some lj ->
     le (cumulativeProduction li) (cumulativeProduction lj) = true) /\
  totalProduction data = sum (productions data) /\
  (forall init l, cumulativeData data = init ++ [l] ->
     add (cumulativeProduction l) (production (item l))
       = totalProduction data).
Proof.
  intro Hpos. split; [apply cumulativeData_items|].
  split; [apply cumulativeData_nth|].
  split; [intros l Hl; apply (cumulativeData_nth data 0 Hl)|].
  split.
  { intros i j li lj Hij Hi Hj.
    rewrite (cumulativeData_nth data i Hi), (cumulativeData_nth data j Hj).
    apply cumulative_monotone; assumption. }
  split; [apply totalProduction_sum|].
  intros init l Hls.
  assert (Hl : nth_error (cumulativeData data) (List.length init) = Some l).
  { rewrite Hls, nth_error_app2, Nat.sub_diag; [reflexivity|lia]. }
  rewrite (cumulativeData_nth data _ Hl), totalProduction_sum.
  pose proof (cumulativeData_items data) as Hitems.
  rewrite Hls, map_app in Hitems. cbn in Hitems. rewrite <- Hitems.
  rewrite <- (length_map item init), firstn_app, Nat.sub_diag, firstn_all.
  cbn [firstn]. rewrite app_nil_r.
  unfold sum, productions. rewrite map_app, fold_left_app. reflexivity.
Qed.

Lemma C1_cumulative_layout_witness :
  Forall (fun it => positiveItem it = true) sampleData /\
  (forall i j li lj, (i <= j)%nat ->
     nth_error (cumulativeData sampleData) i = Some li ->
     nth_error (cumulativeData sampleData) j = Some lj ->
     le (cumulativeProduction li) (cumulativeProduction lj) = true).
Proof.
  assert (H : Forall (fun it => positiveItem it = true) sampleData)
    by (repeat constructor).
  split; [exact H|].
  exact (proj1 (proj2 (proj2 (proj2 (C1_cumulative_layout H))))).
Defined.

(** the length of the list given to [setData], for every text *)
Lemma handleFileUpload_length (text : string) :
  exists records,
    handleFileUpload text = Ok records /\
    List.length records =
      List.length (filter rowPositive (filter rowOk (dataRows text))).
Proof.
  destruct (parsedData_ok text) as (parsed & Hp & _ & Hlen).
  exists (arraySort byCost parsed). unfold handleFileUpload. rewrite Hp.
  split; [reflexivity|]. now rewrite arraySort_length.
Qed.

(** the filter on production and cost does not look at the index *)
Lemma mapRow_rowPositive (row : option (list string)) (i : nat) (it : Item) :
  mapRow row i = Ok it -> rowPositive row = positiveItem it.
Proof.
  unfold rowPositive.
  destruct row as [[|f0 [|f1 fs]]|]; cbn; try discriminate.
  intro H. injection H as <-. reflexivity.
Qed.

Lemma filter_rowOk_rowPositive (l : list (option (list string))) :
  filter rowPositive (filter rowOk l)
  = filter (fun row => rowOk row && rowPositive row) l.
Proof.
  induction l as [|row t IH]; [reflexivity|]. cbn [filter].
  destruct (rowOk row); cbn [filter andb]; [|exact IH].
  destruct (rowPositive row); now rewrite IH.
Qed.

(** C2. For every text the parser ends without an error, and the records
    it yields are as many as the data rows (the lines after the header)
    that split into at least four fields and whose mapped production and
    cost are both positive; every record is the mapping of such a row, so
    a row with fewer than four fields, or with no field at all, gives no
    record; and when every data row either splits into at least four
    fields or is a line with no field, as the empty line after a last line
    feed is, the records are as many as the data rows whose mapped
    production and cost are both positive. *)
Theorem C2_parsed_count (text : string) :
  exists records,
    handleFileUpload text = Ok records /\
    List.length records
      = List.length (filter (fun row => rowOk row && rowPositive row)
                            (dataRows text)) /\
    Forall (fun it =>
              exists row,
                In row (dataRows text) /\ rowOk row = true /\
                rowPositive row = true /\ mapRow row (id it) = Ok it)
           records /\
    (Forall (fun row => rowOk row = true \/ row = None) (dataRows text) ->
     List.length records = List.length (filter rowPositive (dataRows text))).
Proof.
  destruct (handleFileUpload_length text) as (records & Hr & Hlen).
  rewrite filter_rowOk_rowPositive in Hlen.
  exists records. split; [exact Hr|]. split; [exact Hlen|]. split.
  - revert Hr. unfold handleFileUpload, parsedData.
    destruct (mapiM mapRow 0 (filter rowOk (dataRows text)))
      as [mapped| |] eqn:Em; try discriminate.
    cbn [bind]. intro H. injection H as <-.
    destruct (mapiM_mapRow_nth _ _ Em) as [_ Hrows].
    apply Forall_forall. intros it Hin.
    apply arraySort_In in Hin. apply filter_In in Hin.
    destruct Hin as [Hin Hpos].
    destruct (Hrows it Hin) as (row & Hn & Hm).
    apply nth_error_In, filter_In in Hn. destruct Hn as [Hrow Hok].
    exists row. rewrite (mapRow_rowPositive _ _ Hm). repeat split; assumption.
  - intro Hrows. rewrite Hlen. f_equal. clear Hr Hlen.
    induction Hrows as [|row t Hrow _ IH]; [reflexivity|]. cbn [filter].
    rewrite IH. destruct Hrow as [-> | ->]; reflexivity.
Qed.

Lemma C2_parsed_count_witness :
  (Forall (fun row => rowOk row = true \/ row = None) (dataRows blankEndCsv) /\
   exists records,
     handleFileUpload blankEndCsv = Ok records /\
     List.length records = 2%nat) /\
  exists records,
    handleFileUpload shortRowCsv = Ok records /\ List.length records = 2%nat.
Proof.
  assert (H : Forall (fun row => rowOk row = true \/ row = None)
                     (dataRows blankEndCsv)).
  { repeat (apply Forall_cons;
            [first [left; reflexivity | right; reflexivity]|]).
    apply Forall_nil. }
  split; [split; [exact H|]|].
  - destruct (C2_parsed_count blankEndCsv) as (records & Hr & _ & _ & Hlen).
    exists records. split; [exact Hr|]. rewrite (Hlen H). reflexivity.
  - destruct (C2_parsed_count shortRowCsv) as (records & Hr & Hlen & _).
    exists records. split; [exact Hr|]. rewrite Hlen. reflexivity.
Defined.

(** C3. For every text, the list the parser gives to the layout is sorted
    by cost, each record costing at most as much as every later one; it
    is a rearrangement of the records parsed; and for every cost the
    records of that cost come in the order they had before the sort. *)
Theorem C3_sorted_stable (text : string) :
  exists parsed records,
    parsedData text = Ok parsed /\
    handleFileUpload text = Ok records /\
    StronglySorted costLe records /\
    Permutation records parsed /\
    forall c, filter (sameCost c) records = filter (sameCost c) parsed.
Proof.
  destruct (parsedData_ok text) as (parsed & Hp & Hpos & _).
  exists parsed, (arraySort byCost parsed).
  unfold handleFileUpload. rewrite Hp.
  split; [reflexivity|]. split; [reflexivity|].
  split; [apply arraySort_byCost_sorted, Hpos|].
  split; [apply arraySort_perm|].
  intro c. apply arraySort_filter. intros a b. apply byCost_class.
Qed.

(** C5. For every list of at least one record, all with positive
    production and cost, the sorted costs are the costs of the records in
    ascending order, the quartiles are the elements of the sorted costs
    at the indices [floor(len * 0.25)], [floor(len * 0.5)] and
    [floor(len * 0.75)], and [q1 <= median <= q3]. *)
Theorem C5_quartiles_ordered (data : list Item) :
  data <> [] -> Forall (fun it => positiveItem it = true) data ->
  Permutation (sortedCosts data) (map cost data) /\
  StronglySorted numLe (sortedCosts data) /\
  nth_error (sortedCosts data) (quartileIndex (List.length data) 1 4)
    = Some (q1 (quartiles data)) /\
  nth_error (sortedCosts data) (quartileIndex (List.length data) 1 2)
    = Some (median (quartiles data)) /\
  nth_error (sortedCosts data) (quartileIndex (List.length data) 3 4)
    = Some (q3 (quartiles data)) /\
  le (q1 (quartiles data)) (median (quartiles data)) = true /\
  le (median (quartiles data)) (q3 (quartiles data)) = true.
Proof.
  intros Hne Hpos.
  destruct (quartiles_values Hne Hpos) as (Hq1 & Hq2 & Hq3).
  pose proof (sortedCosts_sorted Hpos) as Hs.
  pose proof (sortedCosts_pos Hpos) as Hp.
  assert (Hlen : (1 <= List.length data)%nat).
  { destruct data; [congruence|cbn; lia]. }
  destruct (quartile_indices Hlen) as (H12 & H23 & _).
  split; [rewrite sortedCosts_eq; apply arraySort_perm|].
  split; [exact Hs|].
  split; [exact Hq1|]. split; [exact Hq2|]. split; [exact Hq3|].
  split.
  - eapply (@sorted_nth_le _ _ _ _ _ Hs Hp H12); eassumption.
  - eapply (@sorted_nth_le _ _ _ _ _ Hs Hp H23); eassumption.
Qed.

Lemma C5_quartiles_ordered_witness :
  (sampleData <> [] /\ Forall (fun it => positiveItem it = true) sampleData) /\
  le (q1 (quartiles sampleData)) (median (quartiles sampleData)) = true /\
  le (median (quartiles sampleData)) (q3 (quartiles sampleData)) = true.
Proof.
  assert (Hne : sampleData <> []) by discriminate.
  assert (H : Forall (fun it => positiveItem it = true) sampleData)
    by (repeat constructor).
  split; [split; assumption|].
  exact (proj2 (proj2 (proj2 (proj2 (proj2 (C5_quartiles_ordered Hne H)))))).
Defined.

(** the value the effect stores, and the render that follows it: for
    records whose productions are at least [0], the weighted average is
    the sum of [cost * production] divided by the sum of the productions,
    which is the [totalProduction] of the layout; when that total is [0]
    the value is NaN, and once the effect has stored it the overlay is
    left out *)
Lemma weightedAverage_settled (data : list Item) :
  Forall (fun it => le zero (production it) = true) data ->
  weightedAverageCost data
    = div (sum (weightedTerms data)) (sum (productions data)) /\
  sum (productions data) = totalProduction data /\
  (eqb (totalProduction data) zero = true ->
   weightedAverageCost data = NaN /\
   forall show st,
     renderAverage show (averageEffect (setData data st)) = None).
Proof.
  intro Hnn. split; [apply weightedAverageCost_sums|].
  split; [symmetry; apply totalProduction_sum|].
  intro Hz. pose proof (weightedAverageCost_nan Hnn Hz) as Hnan.
  split; [exact Hnan|].
  intros show st. unfold renderAverage, averageEffect, setData.
  cbn [stateAverage stateData]. unfold weightedAverageOverlay.
  rewrite Hnan. now destruct show.
Qed.

(** C7. The overlay is drawn from the stored average, which lags one
    render behind [data].  The example text is read and the effect stores
    the average [15] of its three records; then a text of the header line
    alone is read, which gives no record.  In the render that follows,
    [totalProduction] is [0] and the weighted average of the records is
    NaN, and yet the overlay is drawn, from the [15] still stored, at the
    [y] [-Infinity]; it is left out only in the render after the effect
    has run again. *)
Theorem C7_stale_average :
  let loaded := averageEffect (setData sampleData initialState) in
  let replaced := setData [] loaded in
  handleFileUpload sampleCsv = Ok sampleData /\
  handleFileUpload "name,production,cost,highlight" = Ok [] /\
  eqb (stateAverage replaced) (ofZ 15) = true /\
  totalProduction (stateData replaced) = zero /\
  weightedAverageCost (stateData replaced) = NaN /\
  renderAverage true replaced = Some {| lineY := NInf; labelY := NInf |} /\
  renderAverage true (averageEffect replaced) = None.
Proof. repeat split. Qed.

Lemma handleFileUpload_positive (text : string) (records : list Item) :
  handleFileUpload text = Ok records ->
  Forall (fun it => positiveItem it = true) records.
Proof.
  destruct (parsedData_ok text) as (parsed & Hp & Hpos & _).
  unfold handleFileUpload. rewrite Hp. cbn. intro H. injection H as <-.
  apply arraySort_Forall, Hpos.
Qed.

(** C9. Every record of a parsed list has positive production and cost;
    and for every list of at least one such record, [totalProduction] and
    [maxCost], the two divisors of the bar geometry, of the ticks and of
    the overlays, are positive, hence different from [0]. *)
Theorem C9_positive_divisors :
  (forall text records,
     handleFileUpload text = Ok records ->
     Forall (fun it => positiveItem it = true) records) /\
  (forall data,
     data <> [] -> Forall (fun it => positiveItem it = true) data ->
     gt (totalProduction data) zero = true /\
     gt (maxCost data) zero = true /\
     eqb (totalProduction data) zero = false /\
     eqb (maxCost data) zero = false).
Proof.
  split; [apply handleFileUpload_positive|].
  intros data Hne Hpos.
  pose proof (totalProduction_pos Hne Hpos) as Ht.
  pose proof (maxCost_pos Hne Hpos) as Hm.
  auto using gt_zero_neq.
Qed.

Lemma C9_positive_divisors_witness :
  handleFileUpload sampleCsv = Ok sampleData /\
  sampleData <> [] /\
  Forall (fun it => positiveItem it = true) sampleData /\
  gt (totalProduction sampleData) zero = true /\
  gt (maxCost sampleData) zero = true.
Proof.
  assert (Hparse : handleFileUpload sampleCsv = Ok sampleData)
    by (vm_compute; reflexivity).
  assert (Hne : sampleData <> []) by discriminate.
  pose proof (proj1 C9_positive_divisors sampleCsv sampleData Hparse) as Hpos.
  destruct (proj2 C9_positive_divisors sampleData Hne Hpos) as (Ht & Hm & _).
  repeat split; assumption.
Defined.





(** [find] yields the first element that passes the test *)
Lemma find_first (A : Type) (f : A -> bool) (l : list A) (x : A) :
  find f l = Some x ->
  exists pre post,
    l = pre ++ x :: post /\ f x = true /\ Forall (fun y => f y = false) pre.
Proof.
  induction l as [|a t IH]; cbn; [discriminate|].
  destruct (f a) eqn:E; intro H.
  - injection H as <-. exists [], t. auto.
  - destruct (IH H) as (pre & post & -> & Hx & Hpre).
    exists (a :: pre), post. auto.
Qed.

(** when the lookup of a marker finds a record, it is the first one, in
    the order of the layout, whose cost is at least the value, and its
    [cumulativeProduction] gives the [x] of the marker *)
Lemma quartileMarker_first_match (data : list Item) (key : QuartileKey)
  (v : num) (l : LayoutItem) :
  find (fun l => ge (cost (item l)) v) (cumulativeData data) = Some l ->
  markerX (quartileMarker data key v)
    = xOf (cumulativeProduction l) (totalProduction data) /\
  exists pre post,
    cumulativeData data = pre ++ l :: post /\
    ge (cost (item l)) v = true /\
    Forall (fun l' => ge (cost (item l')) v = false) pre.
Proof.
  intro H. split.
  - unfold quartileMarker, findCumulative. cbn [markerX]. now rewrite H.
  - apply (find_first _ _ H).
Qed.

(** C4. With no record and the check boxes as the application starts,
    no bar is drawn and the weighted-average overlay is left out, in the
    first render, where the stored average is [0], and in the render
    after the effect, where it is NaN; but the one tick of each axis gets
    the coordinate NaN; with the quartile box ticked the three markers
    get the [x] NaN; and with a gold price of 2000 the price line gets
    the [y] [-Infinity]. No exception is raised. *)
Theorem C4_degenerate_dataset :
  getBars [] = [] /\
  renderAverage true initialState = None /\
  renderAverage true (averageEffect initialState) = None /\
  yAxisTicks true [] = Some (Ok [{| tickValue := zero; tickPos := NaN |}]) /\
  xAxisTicks true [] = Some (Ok [{| tickValue := zero; tickPos := NaN |}]) /\
  quartileLines true []
    = Some [ {| markerKey := KQ1; markerX := NaN; markerValue := zero |};
             {| markerKey := KMedian; markerX := NaN; markerValue := zero |};
             {| markerKey := KQ3; markerX := NaN; markerValue := zero |} ] /\
  goldPriceOverlay true (Some (ofZ 2000)) []
    = Element {| lineY := NInf; labelY := NInf |}.
Proof. repeat split. Qed.

(** C6. With no record, no record has a cost at least the value of a
    quartile, and yet each of the three markers is drawn, at the [x]
    NaN. *)
Theorem C6_marker_without_record :
  (forall v, find (fun l => ge (cost (item l)) v) (cumulativeData []) = None) /\
  (forall key v, markerX (quartileMarker [] key v) = NaN) /\
  exists m1 m2 m3,
    quartileLines true [] = Some [m1; m2; m3] /\
    markerX m1 = NaN /\ markerX m2 = NaN /\ markerX m3 = NaN.
Proof.
  split; [reflexivity|]. split; [reflexivity|].
  eexists _, _, _. repeat split.
Qed.

(** C8. The row [A,100,"12.5",0] splits into four fields, the third one
    with its double quotes; its cost is mapped to [0], where [12.5] was
    written, and the row is dropped. The same value written without
    quotes, next to a production between quotes, gives the record with
    production [100] and cost [12.5]. *)
Theorem C8_quoted_cost :
  rowMatch quotedCostRow = Some ["A"; "100"; quoted "12.5"; "0"]%string /\
  mapRow (rowMatch quotedCostRow) 0
    = Ok (mkItem "A" (Fin 100) zero false 0) /\
  handleFileUpload quotedCostCsv = Ok [] /\
  handleFileUpload quotedProductionCsv
    = Ok [mkItem "A" (Fin 100) (Fin (25 # 2)) false 0].
Proof. repeat split. Qed.

(* ------------------------------------------------------------------ *)
(** * Further properties of the parser *)

Lemma plainRun_shape (s m r : string) :
  plainRun s = Some (m, r) ->
  plainField m = true /\ s = (m ++ r)%string.
Proof.
  revert m r. induction s as [|c t IH]; intros m r H; [discriminate|].
  cbn [plainRun] in H. destruct (isPlain c) eqn:Ec; [|discriminate].
  destruct (plainRun t) as [[m' r']|] eqn:Et.
  - injection H as <- <-. destruct (IH _ _ eq_refl) as [Hm ->].
    split; [|reflexivity]. cbn. rewrite Ec. cbn.
    destruct m'; [discriminate|exact Hm].
  - destruct (lookahead t); [|discriminate]. injection H as <- <-.
    split; [|reflexivity]. cbn. now rewrite Ec.
Qed.

Lemma quotedTail_shape (s m r : string) :
  quotedTail s = Some (m, r) ->
  endsWithQuote m = true /\ s = (m ++ r)%string.
Proof.
  revert m r. induction s as [|c t IH]; intros m r H; [discriminate|].
  cbn [quotedTail] in H.
  destruct (Ascii.eqb c dquote && lookahead t) eqn:E.
  - injection H as <- <-. apply andb_prop in E. cbn. tauto.
  - destruct (isLineTerminator c); [discriminate|].
    destruct (quotedTail t) as [[m' r']|]; [|discriminate].
    injection H as <- <-. destruct (IH _ _ eq_refl) as [Hm ->].
    split; [|reflexivity]. cbn. destruct m'; [discriminate|exact Hm].
Qed.

Lemma matchAt_shape (s m r : string) :
  matchAt s = Some (m, r) ->
  (plainField m = true \/ quotedField m = true) /\ s = (m ++ r)%string.
Proof.
  destruct s as [|c t]; [discriminate|]. unfold matchAt.
  destruct (Ascii.eqb c dquote) eqn:Ec.
  - destruct (quotedTail t) as [[m' r']|] eqn:Et; [|discriminate].
    intro H. injection H as <- <-.
    destruct (quotedTail_shape _ Et) as [Hm ->].
    split; [|reflexivity]. right. cbn. now rewrite Ec.
  - intro H. destruct (plainRun_shape _ H). auto.
Qed.

Lemma matchAll_shape (s : string) (skip : nat) :
  Forall (fun f => plainField f = true \/ quotedField f = true)
         (matchAll skip s).
Proof.
  revert skip. induction s as [|c t IH]; intro skip; [constructor|].
  cbn [matchAll]. destruct skip as [|k]; [|apply IH].
  destruct (matchAt (String c t)) as [[m r]|] eqn:E; [|apply IH].
  constructor; [|apply IH]. apply (matchAt_shape _ E).
Qed.

(** X1. Whatever the row, [row.match] with the row expression yields
    [null] or a non-empty array, and each field of the array is either a
    non-empty run of characters that are neither a comma nor a double
    quote, or a run that opens and closes with a double quote: the quotes
    are kept, and no field is the empty string. *)
Theorem rowMatch_fields (row : string) (fields : list string) :
  rowMatch row = Some fields ->
  fields <> [] /\
  Forall (fun f => f <> EmptyString /\
                   (plainField f = true \/ quotedField f = true)) fields.
Proof.
  unfold rowMatch. pose proof (matchAll_shape row 0) as H.
  destruct (matchAll 0 row) as [|f t] eqn:E; [discriminate|].
  intro Hf. injection Hf as <-. split; [discriminate|].
  eapply Forall_impl; [|exact H]. intros a [Ha|Ha]; split; auto;
    intros ->; discriminate.
Qed.

Lemma rowMatch_fields_witness :
  rowMatch quotedCostRow = Some ["A"; "100"; quoted "12.5"; "0"]%string /\
  Forall (fun f => f <> EmptyString /\
                   (plainField f = true \/ quotedField f = true))
         ["A"; "100"; quoted "12.5"; "0"]%string.
Proof.
  assert (H : rowMatch quotedCostRow
              = Some ["A"; "100"; quoted "12.5"; "0"]%string) by reflexivity.
  split; [exact H|]. exact (proj2 (rowMatch_fields _ H)).
Defined.

(** *** Lines *)

Lemma splitLines_not_nil (s : string) : splitLines s <> [].
Proof.
  destruct s as [|c t]; cbn; [discriminate|].
  destruct (Ascii.eqb c newline); [discriminate|].
  destruct (splitLines t); discriminate.
Qed.

(** the first line of [h ++ LF ++ body] is [h] when [h] has no line feed *)
Lemma splitLines_header (h body : string) :
  noNewline h = true ->
  splitLines (h ++ String newline body) = h :: splitLines body.
Proof.
  induction h as [|c t IH]; cbn; intro H.
  - reflexivity.
  - apply andb_prop in H. destruct H as [Hc Ht].
    apply negb_true_iff in Hc. rewrite Hc, (IH Ht). reflexivity.
Qed.

Lemma splitLines_single (h : string) :
  noNewline h = true -> splitLines h = [h].
Proof.
  induction h as [|c t IH]; cbn; intro H; [reflexivity|].
  apply andb_prop in H. destruct H as [Hc Ht].
  apply negb_true_iff in Hc. rewrite Hc, (IH Ht). reflexivity.
Qed.

(** a line feed at the end of the text adds one empty row *)
Lemma splitLines_trailing (s : string) :
  splitLines (s ++ String newline EmptyString)
    = splitLines s ++ [EmptyString].
Proof.
  induction s as [|c t IH]; cbn.
  - reflexivity.
  - destruct (Ascii.eqb c newline); [now rewrite IH|].
    rewrite IH. pose proof (splitLines_not_nil t) as Hne.
    destruct (splitLines t); [congruence|reflexivity].
Qed.

Lemma splitLines_rows (s : string) :
  Forall (fun row => noNewline row = true) (splitLines s).
Proof.
  induction s as [|c t IH]; cbn; [repeat constructor|].
  destruct (Ascii.eqb c newline) eqn:Ec; [constructor; [reflexivity|exact IH]|].
  pose proof (splitLines_not_nil t) as Hne.
  destruct (splitLines t) as [|h r]; [congruence|].
  inversion IH; subst. constructor; [|assumption].
  cbn. rewrite Ec. assumption.
Qed.

Lemma splitLines_length (s : string) :
  List.length (splitLines s) = S (countNewlines s).
Proof.
  induction s as [|c t IH]; cbn; [reflexivity|].
  destruct (Ascii.eqb c newline); cbn; [now rewrite IH|].
  pose proof (splitLines_not_nil t) as Hne.
  destruct (splitLines t); [congruence|]. cbn in *. lia.
Qed.

Lemma joinLines_splitLines (s : string) : joinLines (splitLines s) = s.
Proof.
  induction s as [|c t IH]; cbn [splitLines]; [reflexivity|].
  pose proof (splitLines_not_nil t) as Hne.
  destruct (Ascii.eqb c newline) eqn:Ec;
    destruct (splitLines t) as [|h r]; try congruence.
  - apply Ascii.eqb_eq in Ec. subst c. rewrite <- IH. reflexivity.
  - rewrite <- IH. now destruct r.
Qed.

(** the parsed records depend on the rows with at least four fields
    only, in their order *)
Lemma parsedData_of_rows (t1 t2 : string) :
  filter rowOk (dataRows t1) = filter rowOk (dataRows t2) ->
  handleFileUpload t1 = handleFileUpload t2.
Proof.
  intro H. unfold handleFileUpload, parsedData. now rewrite H.
Qed.

(** [text.split] by line feeds yields one row more than the text has
    line feeds, so at least one row; no row holds a line feed; and the
    rows joined by line feeds are the text again. *)
Lemma splitLines_rows_of_text (text : string) :
  List.length (splitLines text) = S (countNewlines text) /\
  Forall (fun row => noNewline row = true) (splitLines text) /\
  joinLines (splitLines text) = text.
Proof.
  split; [apply splitLines_length|].
  split; [apply splitLines_rows | apply joinLines_splitLines].
Qed.

(** X2. The first line of the text is dropped whatever it holds: two texts
    that differ in their first line only give the same records, and a text
    of one line gives no record, even when the line is a valid data row. *)
Theorem header_ignored (h1 h2 body : string) :
  noNewline h1 = true -> noNewline h2 = true ->
  handleFileUpload (h1 ++ String newline body)
    = handleFileUpload (h2 ++ String newline body) /\
  handleFileUpload h1 = Ok [].
Proof.
  intros H1 H2. split.
  - apply parsedData_of_rows. unfold dataRows, rows.
    now rewrite !splitLines_header by assumption.
  - unfold handleFileUpload, parsedData, dataRows, rows.
    now rewrite (splitLines_single _ H1).
Qed.

Lemma header_ignored_witness :
  handleFileUpload ("A,100,10,0" ++ String newline "B,200,20,1")%string
    = handleFileUpload ("name,production,cost,highlight"
                        ++ String newline "B,200,20,1")%string /\
  handleFileUpload "A,100,10,0"%string = Ok [].
Proof.
  apply (@header_ignored "A,100,10,0" "name,production,cost,highlight"
                         "B,200,20,1"); reflexivity.
Defined.

(** X3. A line feed added at the end of the text changes nothing: the
    empty last row matches no field and is dropped before the records are
    numbered. *)
Theorem trailing_newline_ignored (text : string) :
  handleFileUpload (text ++ String newline EmptyString)
    = handleFileUpload text.
Proof.
  apply parsedData_of_rows. unfold dataRows, rows.
  rewrite splitLines_trailing, map_app.
  pose proof (splitLines_not_nil text) as Hne.
  destruct (splitLines text) as [|h r]; [congruence|].
  cbn [map tl app]. rewrite filter_app. cbn. apply app_nil_r.
Qed.

(** *** Records *)

(** keys that differ still differ once some elements are filtered out *)
Lemma filter_keeps_NoDup (K V : Type) (keep : V -> bool) (key : V -> K)
  (xs : list V) (Hnd : NoDup (map key xs)) :
  NoDup (map key (filter keep xs)).
Proof.
  induction xs as [|a t IH]; cbn in *; [constructor|].
  inversion Hnd as [|? ? Hn Ht]; subst. destruct (keep a); cbn; auto.
  constructor; [|auto]. intro Hin. apply Hn.
  apply in_map_iff in Hin. destruct Hin as (x & Hx & Hf).
  apply in_map_iff. exists x. split; [exact Hx|].
  apply filter_In in Hf. tauto.
Qed.

Lemma getBars_keys (data : list Item) :
  map rectKey (getBars data) = map id data.
Proof.
  unfold getBars. rewrite map_map. cbn.
  rewrite <- (cumulativeData_items data) at 2. now rewrite map_map.
Qed.

(** X4. The [id] of a record is the index of its row among the data rows
    with at least four fields; the records kept have pairwise different
    ids, each record is the mapping of the row its id points to, and the
    keys of the bars drawn from them are pairwise different. *)
Theorem record_ids (text : string) (records : list Item) :
  handleFileUpload text = Ok records ->
  NoDup (map id records) /\
  Forall (fun it =>
            exists row,
              nth_error (filter rowOk (dataRows text)) (id it) = Some row /\
              mapRow row (id it) = Ok it) records /\
  NoDup (map rectKey (getBars records)).
Proof.
  unfold handleFileUpload, parsedData.
  destruct (mapiM mapRow 0 (filter rowOk (dataRows text)))
    as [mapped| |] eqn:Em; try discriminate.
  cbn [bind]. intro H. injection H as <-.
  destruct (mapiM_mapRow_nth _ _ Em) as [Hids Hrows].
  assert (Hnd : NoDup (map id (arraySort byCost (filter positiveItem mapped)))).
  { apply Permutation_NoDup
      with (l := map id (filter positiveItem mapped)).
    - apply Permutation_map, Permutation_sym, arraySort_perm.
    - apply filter_keeps_NoDup. rewrite Hids. apply seq_NoDup. }
  split; [exact Hnd|]. split; [|now rewrite getBars_keys].
  apply Forall_forall. intros it Hin.
  apply arraySort_In in Hin. apply filter_In in Hin. destruct Hin as [Hin _].
  destruct (Hrows it Hin) as (row & Hn & Hm).
  rewrite Nat.sub_0_r in Hn. eauto.
Qed.

Lemma record_ids_witness :
  handleFileUpload sampleCsv = Ok sampleData /\
  NoDup (map id sampleData).
Proof.
  assert (H : handleFileUpload sampleCsv = Ok sampleData)
    by (vm_compute; reflexivity).
  split; [exact H|]. exact (proj1 (record_ids _ H)).
Defined.

(** X5. The three counts of the debug text: the rows are one more than the
    line feeds of the text; the parsed points and the filtered-out items
    add up to the data rows; and the filtered-out count, which is never
    negative, is the number of data rows with fewer than four fields or
    with a production or a cost that is not positive. *)
Theorem debugCounts_consistent (text : string) :
  exists c,
    debugCounts text = Ok c /\
    totalRows c = Z.of_nat (S (countNewlines text)) /\
    (parsedPoints c + filteredOut c = totalRows c - 1)%Z /\
    (0 <= filteredOut c)%Z /\
    filteredOut c
      = Z.of_nat (List.length
                    (filter (fun row => negb (rowOk row && rowPositive row))
                            (dataRows text))).
Proof.
  destruct (parsedData_ok text) as (parsed & Hp & _ & Hlen).
  unfold debugCounts. rewrite Hp. cbn [bind]. eexists. split; [reflexivity|].
  cbn [totalRows parsedPoints filteredOut].
  assert (Hrows : List.length (rows text) = S (List.length (dataRows text))).
  { unfold dataRows, rows. pose proof (splitLines_not_nil text) as Hne.
    destruct (splitLines text); [congruence|reflexivity]. }
  assert (Hsplit : forall l : list (option (list string)),
             (List.length (filter rowPositive (filter rowOk l))
              + List.length (filter (fun row => negb (rowOk row && rowPositive row)) l)
              = List.length l)%nat).
  { induction l as [|row t IH]; [reflexivity|]. cbn [filter].
    destruct (rowOk row); cbn [filter andb negb];
      [destruct (rowPositive row)|]; cbn [negb List.length]; lia. }
  specialize (Hsplit (dataRows text)).
  split.
  { unfold rows. now rewrite length_map, splitLines_length. }
  rewrite Hrows, Hlen. lia.
Qed.

Lemma orZero_not_nan (a : num) : isNaN (orZero a) = false.
Proof. unfold orZero. destruct a; cbn; try reflexivity. now destruct (Qeq_bool q 0). Qed.

Lemma removeChars_noQuote (s : string) : noQuote (stripQuotes s) = true.
Proof.
  unfold stripQuotes. induction s as [|c t IH]; cbn; [reflexivity|].
  destruct (Ascii.eqb c dquote) eqn:E; [exact IH|]. cbn. now rewrite E.
Qed.

Lemma skipSpaces_noQuote (s : string) :
  noQuote s = true -> noQuote (skipSpaces s) = true.
Proof.
  induction s as [|c t IH]; cbn; [auto|]. intro H.
  destruct (isSpace c); [|exact H]. apply andb_prop in H. apply IH, H.
Qed.

Lemma trimEnd_noQuote (s : string) :
  noQuote s = true -> noQuote (trimEnd s) = true.
Proof.
  induction s as [|c t IH]; cbn; [auto|]. intro H.
  apply andb_prop in H. destruct H as [Hc Ht]. specialize (IH Ht).
  destruct (trimEnd t).
  - destruct (isSpace c); cbn; [reflexivity|now rewrite Hc].
  - cbn in *. now rewrite Hc, IH.
Qed.

Lemma skipSpaces_start (s : string) : startsWithSpace (skipSpaces s) = false.
Proof.
  induction s as [|c t IH]; cbn; [reflexivity|].
  destruct (isSpace c) eqn:E; [exact IH|]. cbn. exact E.
Qed.

Lemma trimEnd_start (s : string) :
  startsWithSpace s = false -> startsWithSpace (trimEnd s) = false.
Proof.
  destruct s as [|c t]; cbn; [auto|]. intro H. rewrite H.
  now destruct (trimEnd t).
Qed.

Lemma trimEnd_end (s : string) : endsWithSpace (trimEnd s) = false.
Proof.
  induction s as [|c t IH]; cbn; [reflexivity|].
  destruct (trimEnd t) as [|c' t'] eqn:E.
  - destruct (isSpace c) eqn:Ec; cbn; [reflexivity|exact Ec].
  - exact IH.
Qed.

(** X6. Whatever the fields of a row, a record that is built has a
    production and a cost that are numbers, never NaN; its name holds no
    double quote and neither starts nor ends with white space; and its id
    is the index given. *)
Theorem mapRow_values (row : option (list string)) (i : nat) (it : Item) :
  mapRow row i = Ok it ->
  isNaN (production it) = false /\
  isNaN (cost it) = false /\
  noQuote (name it) = true /\
  startsWithSpace (name it) = false /\
  endsWithSpace (name it) = false /\
  id it = i.
Proof.
  destruct row as [[|f0 [|f1 fs]]|]; cbn; try discriminate.
  intro H. injection H as <-. cbn.
  repeat split; try apply orZero_not_nan.
  - apply trimEnd_noQuote, skipSpaces_noQuote, removeChars_noQuote.
  - apply trimEnd_start, skipSpaces_start.
  - apply trimEnd_end.
Qed.

Lemma mapRow_values_witness :
  mapRow (rowMatch quotedCostRow) 0 = Ok (mkItem "A" (Fin 100) zero false 0) /\
  isNaN (cost (mkItem "A" (Fin 100) zero false 0)) = false.
Proof.
  assert (H : mapRow (rowMatch quotedCostRow) 0
              = Ok (mkItem "A" (Fin 100) zero false 0)) by reflexivity.
  split; [exact H|]. exact (proj1 (proj2 (mapRow_values _ _ H))).
Defined.

(* ------------------------------------------------------------------ *)
(** * Further properties of the sort and of the quartiles *)

(** a list in order is left as it is *)
Lemma arraySort_sorted (A : Type) (cmp : A -> A -> num) (l : list A) :
  Sorted (inOrder cmp) l -> arraySort cmp l = l.
Proof.
  induction 1 as [|x t Ht IH Hhd]; [reflexivity|].
  cbn [arraySort]. rewrite IH. destruct Hhd as [|y t' Hxy]; [reflexivity|].
  cbn [insert]. unfold inOrder in Hxy. now rewrite Hxy.
Qed.

Lemma Sorted_map_cost (data : list Item) :
  Sorted (inOrder byCost) data -> Sorted (inOrder sub) (map cost data).
Proof.
  induction 1 as [|x t Ht IH Hhd]; cbn; constructor; [exact IH|].
  destruct Hhd; cbn; constructor. assumption.
Qed.

(** The sort is idempotent on every list, whatever the numbers: the
    second sort finds the list in order and leaves it as it is. *)
Lemma arraySort_idempotent (data : list Item) :
  arraySort byCost (arraySort byCost data) = arraySort byCost data.
Proof. apply arraySort_sorted, arraySort_Sorted, byCost_asym. Qed.


Lemma handleFileUpload_sorted (text : string) (records : list Item) :
  handleFileUpload text = Ok records -> Sorted (inOrder byCost) records.
Proof.
  unfold handleFileUpload. destruct (parsedData text); try discriminate.
  cbn. intro H. injection H as <-. apply arraySort_Sorted, byCost_asym.
Qed.

(** X7. For the records the parser yields, the sort of the costs in the
    layout changes nothing: the sorted costs are the costs of the records
    in their order, and with at least one record the three quartiles are
    the costs of the records at the positions [floor(n * 0.25)], [floor(n
    * 0.5)] and [floor(n * 0.75)] of the list itself. *)
Theorem quartiles_of_parsed (text : string) (records : list Item) :
  handleFileUpload text = Ok records ->
  arraySort byCost records = records /\
  sortedCosts records = map cost records /\
  (records <> [] ->
   option_map cost
     (nth_error records (quartileIndex (List.length records) 1 4))
     = Some (q1 (quartiles records)) /\
   option_map cost
     (nth_error records (quartileIndex (List.length records) 1 2))
     = Some (median (quartiles records)) /\
   option_map cost
     (nth_error records (quartileIndex (List.length records) 3 4))
     = Some (q3 (quartiles records))).
Proof.
  intro H. pose proof (handleFileUpload_sorted _ H) as Hs.
  pose proof (handleFileUpload_positive _ H) as Hpos.
  assert (Hsc : sortedCosts records = map cost records).
  { rewrite sortedCosts_eq. apply arraySort_sorted, Sorted_map_cost, Hs. }
  split; [apply arraySort_sorted, Hs|]. split; [exact Hsc|].
  intro Hne. destruct (quartiles_values Hne Hpos) as (Hq1 & Hq2 & Hq3).
  rewrite Hsc in Hq1, Hq2, Hq3. rewrite nth_error_map in Hq1, Hq2, Hq3.
  auto.
Qed.

Lemma quartiles_of_parsed_witness :
  handleFileUpload sampleCsv = Ok sampleData /\
  sortedCosts sampleData = map cost sampleData.
Proof.
  assert (H : handleFileUpload sampleCsv = Ok sampleData)
    by (vm_compute; reflexivity).
  split; [exact H|]. exact (proj1 (proj2 (quartiles_of_parsed _ H))).
Defined.

(* ------------------------------------------------------------------ *)
(** * Further properties of the layout *)

Lemma max_spec (a b : num) :
  isNaN a = false -> isNaN b = false ->
  isNaN (max a b) = false /\ le a (max a b) = true /\
  le b (max a b) = true /\ (max a b = a \/ max a b = b).
Proof.
  intros Ha Hb. destruct a, b; cbn in *; try discriminate; auto;
    try (repeat split; auto; apply Qle_bool_iff; lra).
  unfold Qlt_bool. destruct (Qle_bool q0 q) eqn:E; cbn.
  - repeat split; auto; qprop; lra.
  - repeat split; auto; qprop; lra.
Qed.

Lemma fold_max_spec (cs : list num) (a : num) :
  Forall (fun c => isNaN c = false) cs -> isNaN a = false ->
  le a (fold_left max cs a) = true /\
  Forall (fun c => le c (fold_left max cs a) = true) cs /\
  (fold_left max cs a = a \/ In (fold_left max cs a) cs).
Proof.
  intro H. revert a. induction H as [|c t Hc Ht IH]; intros a Ha; cbn.
  - split; [apply le_refl, Ha|]. split; [constructor|auto].
  - destruct (max_spec a c Ha Hc) as (Hn & Hla & Hlc & Hm).
    destruct (IH _ Hn) as (Hle & Hall & Hin).
    split; [eapply le_trans; eassumption|].
    split; [constructor; [eapply le_trans; eassumption|exact Hall]|].
    destruct Hin as [Hin|Hin]; [|auto].
    rewrite Hin. destruct Hm as [->| ->]; auto.
Qed.

(** [maxCost] is the greatest cost *)
Lemma maxCost_of_costs (data : list Item) :
  data <> [] -> Forall (fun it => positiveItem it = true) data ->
  Forall (fun it => le (cost it) (maxCost data) = true) data /\
  exists it, In it data /\ cost it = maxCost data.
Proof.
  intros Hne Hpos. rewrite maxCost_fold.
  assert (Hnan : Forall (fun c => isNaN c = false) (map cost data)).
  { apply Forall_map. eapply Forall_impl; [|exact Hpos].
    intro a. apply positive_cost_not_nan. }
  destruct (@fold_max_spec (map cost data) zero Hnan eq_refl)
    as (_ & Hall & Hin).
  split; [now rewrite Forall_map in Hall|].
  destruct Hin as [Hz|Hin].
  - exfalso. pose proof (maxCost_pos Hne Hpos) as Hgt.
    rewrite maxCost_fold, Hz in Hgt. discriminate.
  - apply in_map_iff in Hin. destruct Hin as (it & Hc & Hit). eauto.
Qed.

Lemma le_both_eqb (a b : num) :
  le a b = true -> le b a = true -> eqb a b = true.
Proof. intros H1 H2. num_solve. Qed.

(** the last element of a strongly sorted list is related to all *)
Lemma StronglySorted_last (A : Type) (R : A -> A -> Prop) (init : list A)
  (lst : A) :
  StronglySorted R (init ++ [lst]) -> Forall (fun a => R a lst) init.
Proof.
  induction init as [|a t IH]; cbn; intro H; [constructor|].
  inversion H as [|? ? Hs Hall]; subst. constructor; [|apply IH, Hs].
  rewrite Forall_forall in Hall. apply Hall, in_or_app. right. now left.
Qed.

(** X8. With at least one record, all with positive production and
    cost, [maxCost] is the cost of one of the records and no record costs
    more; and when the records are in the order of the sort, it is the
    cost of the last record. *)
Theorem maxCost_is_max (data : list Item) :
  data <> [] -> Forall (fun it => positiveItem it = true) data ->
  Forall (fun it => le (cost it) (maxCost data) = true) data /\
  (exists it, In it data /\ cost it = maxCost data) /\
  (Sorted (inOrder byCost) data ->
   forall init lst, data = init ++ [lst] ->
     numEq (cost lst) (maxCost data)).
Proof.
  intros Hne Hpos. destruct (maxCost_of_costs Hne Hpos) as [Hup Hatt].
  split; [exact Hup|]. split; [exact Hatt|].
  intros Hs init lst Hdata. destruct Hatt as (it & Hin & Hcost).
  assert (Hss : StronglySorted costLe data).
  { apply Sorted_StronglySorted; [intros a b c; apply le_trans|].
    apply Sorted_weaken
      with (P := fun it => positiveItem it = true) (R := inOrder byCost);
      [|exact Hpos|exact Hs].
    intros a b Ha Hb Hab.
    apply sub_not_gt_le; auto using positive_cost_not_nan. }
  rewrite Forall_forall in Hup, Hpos. apply le_both_eqb.
  - apply Hup. rewrite Hdata. apply in_or_app. right. now left.
  - rewrite <- Hcost. rewrite Hdata in Hss, Hin. apply in_app_or in Hin.
    destruct Hin as [Hin|[<-|[]]].
    + pose proof (StronglySorted_last _ _ Hss) as Hl.
      rewrite Forall_forall in Hl. apply Hl, Hin.
    + apply le_refl, positive_cost_not_nan, Hpos.
      rewrite Hdata. apply in_or_app. right. now left.
Qed.

Lemma maxCost_is_max_witness :
  (sampleData <> [] /\ Forall (fun it => positiveItem it = true) sampleData) /\
  Forall (fun it => le (cost it) (maxCost sampleData) = true) sampleData.
Proof.
  assert (Hne : sampleData <> []) by discriminate.
  assert (H : Forall (fun it => positiveItem it = true) sampleData)
    by (repeat constructor).
  split; [split; assumption|]. exact (proj1 (maxCost_is_max Hne H)).
Defined.

(** *** Views as rationals *)

(** the cost of a record and [maxCost], as rationals, when [maxCost] is
    finite *)
Lemma cost_view (data : list Item) (it : Item) :
  Forall (fun it => positiveItem it = true) data ->
  isFinite (maxCost data) = true ->
  In it data ->
  exists k M : Q,
    cost it = Fin k /\ maxCost data = Fin M /\ (0 < k /\ k <= M)%Q.
Proof.
  intros Hpos HfM Hin.
  assert (Hne : data <> []) by (intros ->; destruct Hin).
  pose proof (proj1 (Forall_forall _ _) Hpos _ Hin) as Hp.
  pose proof (positive_cost _ Hp) as Hpk.
  pose proof (proj1 (Forall_forall _ _) (proj1 (maxCost_of_costs Hne Hpos))
                _ Hin) as Hmax.
  cbn beta in Hmax.
  destruct (maxCost data) as [M| | |]; try discriminate.
  destruct (cost it) as [k| | |]; try discriminate.
  exists k, M. unfold gt, zero in *. cbn in *. qprop.
  repeat split; try reflexivity; lra.
Qed.

Lemma Qdiv_unit (k M : Q) : (0 < k -> k <= M -> 0 < k / M /\ k / M <= 1)%Q.
Proof.
  intros Hk Hle. assert (HM : (0 < M)%Q) by lra. split.
  - apply Qlt_shift_div_l; lra.
  - apply Qle_shift_div_r; lra.
Qed.



Lemma yOf_Fin (k M : Q) :
  Qeq_bool M 0 = false -> yOf (Fin k) (Fin M) = Fin (520 + - (k / M * 480)).
Proof. intro H. unfold yOf, div. rewrite H. reflexivity. Qed.

Lemma Qpos_neq (T : Q) : (0 < T)%Q -> Qeq_bool T 0 = false.
Proof. intro H. apply Qeq_bool_false. lra. Qed.



(** *** Bars *)

(** write the integer constants of the goal and of the context as
    rationals *)
Ltac qconst :=
  repeat match goal with
         | |- context [inject_Z ?z] => change (inject_Z z) with (z # 1)%Q
         | H : context [inject_Z ?z] |- _ =>
             change (inject_Z z) with (z # 1)%Q in H
         end.

Lemma getBars_nth (data : list Item) (i : nat) (r : Rect) :
  nth_error (getBars data) i = Some r ->
  exists l,
    nth_error (cumulativeData data) i = Some l /\
    rectX r = xOf (cumulativeProduction l) (totalProduction data) /\
    rectY r = yOf (cost (item l)) (maxCost data) /\
    rectWidth r = max (sub (slot data (item l)) barPadding) (ofZ 1) /\
    rectHeight r = mul (div (cost (item l)) (maxCost data)) chartHeight /\
    rectKey r = id (item l) /\ rectHighlight r = highlight (item l).
Proof.
  unfold getBars. rewrite nth_error_map.
  destruct (nth_error (cumulativeData data) i) as [l|]; [|discriminate].
  cbn. intro H. injection H as <-. exists l. repeat split.
Qed.

(** X9. With positive records and a finite [maxCost], every bar stays in
    the plot: its height is at least [0] and at most the height of the
    plot, and its top lies between the top margin and the bottom of the
    plot; and with at least one record, the bar of a record whose cost is
    [maxCost] has the full height of the plot and its top on the top
    margin. *)
Theorem bars_vertical (data : list Item) :
  Forall (fun it => positiveItem it = true) data ->
  isFinite (maxCost data) = true ->
  Forall (fun r =>
            le zero (rectHeight r) = true /\
            le (rectHeight r) chartHeight = true /\
            le (top MARGIN) (rectY r) = true /\
            le (rectY r) plotBottom = true)
         (getBars data) /\
  (data <> [] ->
   exists r, In r (getBars data) /\
     numEq (rectHeight r) chartHeight /\ numEq (rectY r) (top MARGIN)).
Proof.
  intros Hpos HfM. split.
  - apply Forall_forall. intros r Hr.
    destruct (In_nth_error _ _ Hr) as [i Hi].
    destruct (getBars_nth _ _ Hi) as (l & Hl & _ & Hy & _ & Hh & _).
    assert (Hin : In (item l) data)
      by (eapply nth_error_In, cumulativeData_item_nth, Hl).
    destruct (cost_view _ Hpos HfM Hin) as (k & M & Hk & HM & H0k & HkM).
    destruct (Qdiv_unit H0k HkM) as [Hr0 Hr1].
    assert (HM0 : Qeq_bool M 0 = false) by (apply Qpos_neq; lra).
    rewrite Hy, Hh, Hk, HM. rewrite yOf_Fin by exact HM0.
    unfold div. rewrite HM0. unfold plotBottom.
    cbn. repeat split; qprop; qconst; lra.
  - intro Hne.
    destruct (maxCost_of_costs Hne Hpos) as (_ & it & Hin & Hcost).
    destruct (cost_view _ Hpos HfM Hin) as (k & M & Hk & HM & H0k & HkM).
    rewrite <- (cumulativeData_items data) in Hin.
    apply in_map_iff in Hin. destruct Hin as (l & Hitem & Hl).
    assert (HM0 : Qeq_bool M 0 = false) by (apply Qpos_neq; lra).
    eexists. split; [unfold getBars; apply in_map, Hl|].
    cbn [rectHeight rectY]. rewrite Hitem, Hcost, HM.
    rewrite yOf_Fin by exact HM0. unfold div. rewrite HM0.
    assert (H1 : (M / M == 1)%Q) by (field; lra).
    unfold numEq. cbn. split; qprop; qconst; rewrite H1; ring.
Qed.

Lemma bars_vertical_witness :
  (Forall (fun it => positiveItem it = true) sampleData /\
   isFinite (maxCost sampleData) = true) /\
  Forall (fun r => le (top MARGIN) (rectY r) = true /\
                   le (rectY r) plotBottom = true)
         (getBars sampleData).
Proof.
  assert (H : Forall (fun it => positiveItem it = true) sampleData)
    by (repeat constructor).
  assert (HM : isFinite (maxCost sampleData) = true) by reflexivity.
  split; [split; assumption|].
  eapply Forall_impl; [|exact (proj1 (bars_vertical H HM))].
  intros r Hr. split; apply Hr.
Defined.




(* ------------------------------------------------------------------ *)
(** * Further properties of the ticks *)

Lemma nth_error_map_seq (B : Type) (f : nat -> B) (n i : nat) :
  (i < n)%nat -> nth_error (map f (seq 0 n)) i = Some (f i).
Proof.
  intro H. rewrite nth_error_map.
  rewrite (nth_error_nth' (seq 0 n) 0%nat) by (now rewrite length_seq).
  now rewrite seq_nth.
Qed.

Lemma inject_Z_succ (z : Z) : (inject_Z z + 1 == inject_Z (z + 1))%Q.
Proof. rewrite inject_Z_plus. reflexivity. Qed.

(** the length of the array of the cost ticks *)
Lemma arrayLength_ticks (M : Q) :
  (0 < M)%Q -> (M <= 2147483647000)%Q ->
  arrayLength (add (ceil (div (Fin M) (ofZ 500))) (ofZ 1))
    = Ok (S (Z.to_nat (Qceiling (M / 500)))) /\
  (1 <= Qceiling (M / 500))%Z /\
  (M <= 500 * inject_Z (Qceiling (M / 500)))%Q.
Proof.
  intros HM Hlim.
  assert (Hx : (0 < M / 500)%Q) by (apply Qlt_shift_div_l; lra).
  pose proof (Qle_ceiling (M / 500)) as Hc.
  pose proof (Qceiling_lt (M / 500)) as Hc'.
  assert (Hpos : (0 < Qceiling (M / 500))%Z).
  { rewrite Zlt_Qlt. change (inject_Z 0) with 0%Q. lra. }
  assert (Hup : (M / 500 <= 4294967294)%Q) by (apply Qle_shift_div_r; lra).
  assert (Hle : (Qceiling (M / 500) <= 4294967294)%Z).
  { apply Qceiling_resp_le in Hup.
    change 4294967294%Q with (inject_Z 4294967294) in Hup.
    now rewrite Qceiling_Z in Hup. }
  assert (Hq : (0 < inject_Z (Qceiling (M / 500)))%Q).
  { change 0%Q with (inject_Z 0). now rewrite <- Zlt_Qlt. }
  assert (Hq' : (inject_Z (Qceiling (M / 500)) <= 4294967294)%Q).
  { change 4294967294%Q with (inject_Z 4294967294). now rewrite <- Zle_Qle. }
  split; [|split; [lia|]].
  - change (div (Fin M) (ofZ 500)) with (Fin (M / 500)).
    cbn [ceil add ofZ]. unfold arrayLength.
    change (inject_Z (2 ^ 32 - 1)) with 4294967295%Q.
    replace (Qle_bool (inject_Z (Qceiling (M / 500)) + inject_Z 1) 0)
      with false by (symmetry; qprop; qconst; lra).
    replace (Qle_bool (inject_Z (Qceiling (M / 500)) + inject_Z 1)
                      4294967295)
      with true by (symmetry; qprop; qconst; lra).
    f_equal. change (inject_Z 1) with 1%Q.
    rewrite (Qfloor_comp _ _ (inject_Z_succ (Qceiling (M / 500)))).
    rewrite Qfloor_Z. lia.
  - assert (HMd : (M == M / 500 * 500)%Q) by (field; discriminate).
    rewrite HMd at 1. lra.
Qed.

Lemma yAxisTicks_Fin (data : list Item) (M : Q) :
  maxCost data = Fin M ->
  yAxisTicks true data
    = Some (n <- arrayLength (add (ceil (div (Fin M) (ofZ 500))) (ofZ 1)) ;;
            Ok (map (fun i =>
                       {| tickValue := mul (ofZ 500) (ofNat i);
                          tickPos := yOf (mul (ofZ 500) (ofNat i)) (Fin M) |})
                    (seq 0 n))).
Proof. intro H. unfold yAxisTicks. rewrite H. reflexivity. Qed.

(** X11. The cost ticks are not built when the box is not ticked. When it
    is, building them throws a RangeError exactly when [maxCost] is above
    [500 * (2^32 - 2)], the infinite [maxCost] included; otherwise the
    ticks are returned. *)
Theorem yAxisTicks_outcome (data : list Item) :
  yAxisTicks false data = None /\
  (gt (maxCost data) maxCostLimit = true ->
   yAxisTicks true data = Some Throws) /\
  (gt (maxCost data) maxCostLimit = false ->
   exists ticks, yAxisTicks true data = Some (Ok ticks)).
Proof.
  split; [reflexivity|].
  destruct (maxCost data) as [M| | |] eqn:HM.
  - rewrite (yAxisTicks_Fin data HM).
    change (div (Fin M) (ofZ 500)) with (Fin (M / 500)).
    cbn [ceil add ofZ]. unfold arrayLength, gt, maxCostLimit.
    change (inject_Z (2 ^ 32 - 1)) with 4294967295%Q. cbn [lt ofZ].
    pose proof (Qle_ceiling (M / 500)) as Hc.
    set (q := (inject_Z (Qceiling (M / 500)) + inject_Z 1)%Q).
    assert (Hq : (q == inject_Z (Qceiling (M / 500)) + 1)%Q) by reflexivity.
    clearbody q.
    split; intro H; qprop.
    + assert (Hx : (4294967294 < M / 500)%Q)
        by (apply Qlt_shift_div_l; qconst; lra).
      replace (Qle_bool q 0) with false by (symmetry; qprop; lra).
      replace (Qle_bool q 4294967295) with false by (symmetry; qprop; lra).
      reflexivity.
    + destruct (Qle_bool q 0); [cbn; eauto|].
      assert (Hup : (M / 500 <= 4294967294)%Q)
        by (apply Qle_shift_div_r; qconst; lra).
      apply Qceiling_resp_le in Hup.
      change 4294967294%Q with (inject_Z 4294967294) in Hup.
      rewrite Qceiling_Z in Hup. rewrite Zle_Qle in Hup.
      replace (Qle_bool q 4294967295) with true
        by (symmetry; qprop; qconst; lra).
      cbn. eauto.
  - split; [intros _|discriminate]. unfold yAxisTicks. rewrite HM. reflexivity.
  - split; [discriminate|intros _]. unfold yAxisTicks. rewrite HM. cbn. eauto.
  - split; [discriminate|intros _]. unfold yAxisTicks. rewrite HM. cbn. eauto.
Qed.

Lemma yAxisTicks_outcome_witness :
  gt (maxCost sampleData) maxCostLimit = false /\
  exists ticks, yAxisTicks true sampleData = Some (Ok ticks).
Proof.
  assert (H : gt (maxCost sampleData) maxCostLimit = false) by reflexivity.
  split; [exact H|]. exact (proj2 (proj2 (yAxisTicks_outcome sampleData)) H).
Defined.

(** X12. With a finite positive [maxCost] up to the limit, the cost ticks
    go up from the axis in steps of [500]: there is at least one tick, the
    tick of index [i] shows [500 * i] at the height of that cost, the
    first one lies on the axis, a later tick lies at or above an earlier
    one, and every tick but the last shows a cost below [maxCost]. *)
Theorem yAxisTicks_ticks (data : list Item) (M : Q) :
  maxCost data = Fin M -> (0 < M)%Q -> (M <= 2147483647000)%Q ->
  exists ticks,
    yAxisTicks true data = Some (Ok ticks) /\
    ticks <> [] /\
    (forall i t, nth_error ticks i = Some t ->
       tickValue t = mul (ofZ 500) (ofNat i) /\
       tickPos t = yOf (tickValue t) (maxCost data)) /\
    (forall t, nth_error ticks 0 = Some t -> numEq (tickPos t) plotBottom) /\
    (forall i j t t', (i <= j)%nat ->
       nth_error ticks i = Some t -> nth_error ticks j = Some t' ->
       le (tickPos t') (tickPos t) = true) /\
    (forall i t, (S i < List.length ticks)%nat ->
       nth_error ticks i = Some t -> lt (tickValue t) (maxCost data) = true).
Proof.
  intros HM H0 Hlim.
  destruct (arrayLength_ticks H0 Hlim) as (Hlen & Hc1 & HcM).
  assert (Hclt : (inject_Z (Qceiling (M / 500)) - 1 < M / 500)%Q).
  { pose proof (Qceiling_lt (M / 500)) as Hclt.
    unfold Z.sub in Hclt. rewrite inject_Z_plus in Hclt. exact Hclt. }
  assert (HM0 : Qeq_bool M 0 = false) by (apply Qpos_neq; lra).
  rewrite (yAxisTicks_Fin data HM), Hlen, HM. cbn [bind].
  set (n := Z.to_nat (Qceiling (M / 500))) in *.
  assert (Hn : inject_Z (Z.of_nat n) = inject_Z (Qceiling (M / 500))).
  { unfold n. rewrite Z2Nat.id by lia. reflexivity. }
  eexists. split; [reflexivity|]. split; [discriminate|].
  assert (Hnth : forall i t,
             nth_error (map (fun i =>
                       {| tickValue := mul (ofZ 500) (ofNat i);
                          tickPos := yOf (mul (ofZ 500) (ofNat i)) (Fin M) |})
                    (seq 0 (S n))) i = Some t ->
             (i < S n)%nat /\
             t = {| tickValue := mul (ofZ 500) (ofNat i);
                    tickPos := yOf (mul (ofZ 500) (ofNat i)) (Fin M) |}).
  { intros i t Ht. assert (Hi : (i < S n)%nat).
    { assert (Hs : nth_error (map (fun i =>
                       {| tickValue := mul (ofZ 500) (ofNat i);
                          tickPos := yOf (mul (ofZ 500) (ofNat i)) (Fin M) |})
                    (seq 0 (S n))) i <> None) by congruence.
      apply nth_error_Some in Hs.
      now rewrite length_map, length_seq in Hs. }
    rewrite nth_error_map_seq in Ht by exact Hi. split; [exact Hi|congruence]. }
  split.
  { intros i t Ht. destruct (Hnth i t Ht) as [_ ->]. split; reflexivity. }
  split.
  { intros t Ht. destruct (Hnth 0%nat t Ht) as [_ ->]. cbn [tickPos].
    change (mul (ofZ 500) (ofNat 0)) with (Fin (inject_Z 500 * inject_Z 0)).
    rewrite yOf_Fin by exact HM0. unfold numEq.
    change plotBottom with (Fin 520). cbn [eqb]. qprop.
    assert (Hv : (inject_Z 500 * inject_Z 0 == 0)%Q) by reflexivity.
    unfold Qdiv. rewrite Hv. ring. }
  split.
  { intros i j t t' Hij Ht Ht'.
    destruct (Hnth i t Ht) as [_ ->]. destruct (Hnth j t' Ht') as [_ ->].
    cbn [tickPos].
    change (mul (ofZ 500) (ofNat i))
      with (Fin (inject_Z 500 * inject_Z (Z.of_nat i))).
    change (mul (ofZ 500) (ofNat j))
      with (Fin (inject_Z 500 * inject_Z (Z.of_nat j))).
    rewrite !yOf_Fin by exact HM0. cbn [le]. qprop.
    assert (HZ : (Z.of_nat i <= Z.of_nat j)%Z) by lia.
    rewrite Zle_Qle in HZ.
    assert (Hd : (inject_Z 500 * inject_Z (Z.of_nat i) / M
                  <= inject_Z 500 * inject_Z (Z.of_nat j) / M)%Q).
    { unfold Qdiv. apply Qmult_le_compat_r;
        [qconst; lra | apply Qlt_le_weak, Qinv_lt_0_compat, H0]. }
    lra. }
  intros i t Hi Ht. destruct (Hnth i t Ht) as [_ ->]. cbn [tickValue].
  rewrite length_map, length_seq in Hi.
  change (mul (ofZ 500) (ofNat i))
    with (Fin (inject_Z 500 * inject_Z (Z.of_nat i))).
  cbn [lt]. qprop.
  assert (HZ : (Z.of_nat i + 1 <= Z.of_nat n)%Z) by lia.
  rewrite Zle_Qle, inject_Z_plus, Hn in HZ.
  assert (HMd : (M == M / 500 * 500)%Q) by (field; discriminate).
  rewrite HMd. qconst. lra.
Qed.

Lemma yAxisTicks_ticks_witness :
  (maxCost sampleData = Fin 20 /\ (0 < 20)%Q /\ (20 <= 2147483647000)%Q) /\
  exists ticks,
    yAxisTicks true sampleData = Some (Ok ticks) /\ ticks <> [].
Proof.
  assert (H1 : maxCost sampleData = Fin 20) by reflexivity.
  assert (H2 : (0 < 20)%Q) by reflexivity.
  assert (H3 : (20 <= 2147483647000)%Q) by discriminate.
  split; [auto|].
  destruct (yAxisTicks_ticks sampleData H1 H2 H3) as (ticks & Ht & Hl & _).
  exists ticks. split; assumption.
Defined.





(** X14. The parser keeps a production or a cost written [Infinity]. With
    positive records, one infinite production makes [totalProduction]
    infinite, and the production ticks are then never returned: the bound
    of their loop is never passed. One infinite cost makes [maxCost]
    infinite, and building the cost ticks then throws. *)
Theorem infinite_fields (data : list Item) :
  Forall (fun it => positiveItem it = true) data ->
  ((exists it, In it data /\ production it = PInf) ->
   totalProduction data = PInf /\
   forall ticks, xAxisTicks true data <> Some (Ok ticks)) /\
  ((exists it, In it data /\ cost it = PInf) ->
   maxCost data = PInf /\ yAxisTicks true data = Some Throws).
Proof.
  intro Hpos. split.
  - intros (it & Hin & Hp).
    assert (HT : totalProduction data = PInf).
    { rewrite totalProduction_sum. apply fold_add_inf.
      - apply productions_nonneg, Hpos.
      - reflexivity.
      - right. rewrite <- Hp. unfold productions. now apply in_map. }
    split; [exact HT|]. intro ticks. unfold xAxisTicks. rewrite HT.
    discriminate.
  - intros (it & Hin & Hc).
    assert (Hne : data <> []) by (intros ->; destruct Hin).
    assert (HM : maxCost data = PInf).
    { pose proof (proj1 (maxCost_of_costs Hne Hpos)) as Hmax.
      rewrite Forall_forall in Hmax. specialize (Hmax it Hin).
      rewrite Hc in Hmax. destruct (maxCost data); cbn in Hmax; congruence. }
    split; [exact HM|]. unfold yAxisTicks. rewrite HM. reflexivity.
Qed.

Lemma infinite_fields_witness :
  handleFileUpload
    ("name,production,cost,highlight" ++ String newline "A,Infinity,Infinity,0")
    = Ok [mkItem "A" PInf PInf false 0] /\
  Forall (fun it => positiveItem it = true) [mkItem "A" PInf PInf false 0] /\
  yAxisTicks true [mkItem "A" PInf PInf false 0] = Some Throws.
Proof.
  assert (H : Forall (fun it => positiveItem it = true)
                     [mkItem "A" PInf PInf false 0]) by (repeat constructor).
  split; [reflexivity|]. split; [exact H|].
  apply (proj2 (infinite_fields H)).
  eexists. split; [left; reflexivity|reflexivity].
Defined.

(* ------------------------------------------------------------------ *)
(** * Further properties of the overlays *)

(** X16. What the expression of the price line gives: nothing when its
    box is not ticked or no price has been fetched; the price itself, which
    React writes as a text, when the box is ticked and the price is [0]
    or NaN; the line otherwise. With at least one positive record, a
    finite [maxCost] and a finite positive price, the line is drawn at or
    above the axis, with its label [5] higher; it lies at or under the top
    of the plot when the price is at most [maxCost], and at or over it
    when the price is at least [maxCost]. *)
Theorem goldPriceOverlay_position (data : list Item) :
  (forall gp, goldPriceOverlay false gp data = Nothing) /\
  goldPriceOverlay true None data = Nothing /\
  (forall gp, truthy gp = false ->
     goldPriceOverlay true (Some gp) data = Text gp) /\
  (data <> [] -> Forall (fun it => positiveItem it = true) data ->
   isFinite (maxCost data) = true ->
   forall g : Q, (0 < g)%Q ->
   exists o,
     goldPriceOverlay true (Some (Fin g)) data = Element o /\
     labelY o = sub (lineY o) (ofZ 5) /\
     le (lineY o) plotBottom = true /\
     (le (Fin g) (maxCost data) = true -> le (top MARGIN) (lineY o) = true) /\
     (le (maxCost data) (Fin g) = true -> le (lineY o) (top MARGIN) = true)).
Proof.
  split; [reflexivity|]. split; [reflexivity|].
  split; [intros gp H; unfold goldPriceOverlay; rewrite H; reflexivity|].
  intros Hne Hpos HfM g Hg.
  pose proof (maxCost_pos Hne Hpos) as HMpos.
  destruct (maxCost data) as [M| | |] eqn:HM; try discriminate.
  unfold gt, zero in HMpos. cbn in HMpos. qprop.
  unfold goldPriceOverlay.
  replace (truthy (Fin g)) with true
    by (symmetry; cbn; apply negb_true_iff; qprop; lra).
  cbn [negb]. eexists. split; [reflexivity|].
  unfold overlayAt. cbn [lineY labelY]. rewrite HM.
  split; [reflexivity|].
  rewrite yOf_Fin by (apply Qpos_neq, HMpos).
  assert (Hr0 : (0 < g / M)%Q) by (apply Qlt_shift_div_l; lra).
  unfold plotBottom. cbn.
  split; [qprop; qconst; lra|]. split; intro Hle; qprop; qconst.
  - assert (Hr1 : (g / M <= 1)%Q) by (apply Qle_shift_div_r; lra). lra.
  - assert (Hr1 : (1 <= g / M)%Q) by (apply Qle_shift_div_l; lra). lra.
Qed.

Lemma goldPriceOverlay_position_witness :
  (sampleData <> [] /\ Forall (fun it => positiveItem it = true) sampleData /\
   isFinite (maxCost sampleData) = true /\ (0 < 2000)%Q /\
   le (maxCost sampleData) (Fin 2000) = true) /\
  exists o,
    goldPriceOverlay true (Some (Fin 2000)) sampleData = Element o /\
    le (lineY o) (top MARGIN) = true.
Proof.
  assert (Hne : sampleData <> []) by discriminate.
  assert (H : Forall (fun it => positiveItem it = true) sampleData)
    by (repeat constructor).
  assert (HM : isFinite (maxCost sampleData) = true) by reflexivity.
  assert (Hg : (0 < 2000)%Q) by reflexivity.
  assert (Hle : le (maxCost sampleData) (Fin 2000) = true) by reflexivity.
  split; [repeat split; assumption|].
  destruct (proj2 (proj2 (proj2 (goldPriceOverlay_position sampleData)))
              Hne H HM 2000%Q Hg) as (o & Ho & _ & _ & _ & Hup).
  exists o. split; [exact Ho|]. exact (Hup Hle).
Defined.

(* ------------------------------------------------------------------ *)
(** * Further properties of the quartile markers *)



(* ------------------------------------------------------------------ *)
(** * Further properties of the labels *)

Lemma mapi_map (A B C : Type) (f : A -> nat -> B) (g : B -> C) (h : A -> C)
  (l : list A) (i : nat) :
  (forall a k, g (f a k) = h a) -> map g (mapi f i l) = map h l.
Proof.
  intro H. revert i. induction l as [|a t IH]; intro i; cbn; [reflexivity|].
  now rewrite H, IH.
Qed.

Lemma mapi_keys (A B : Type) (f : A -> nat -> B) (g : B -> nat)
  (l : list A) (i : nat) :
  (forall a k, g (f a k) = k) -> map g (mapi f i l) = seq i (List.length l).
Proof.
  intro H. revert i. induction l as [|a t IH]; intro i; cbn; [reflexivity|].
  now rewrite H, IH.
Qed.

Lemma mapi_In (A B : Type) (f : A -> nat -> B) (l : list A) (i : nat) (b : B) :
  In b (mapi f i l) -> exists a k, In a l /\ b = f a k.
Proof.
  revert i. induction l as [|a t IH]; intro i; cbn; [intros []|].
  intros [<-|H]; [eauto|]. destruct (IH _ H) as (a' & k & Ha & Hb). eauto.
Qed.

Lemma filter_map_item (p : Item -> bool) (ls : list LayoutItem) :
  map item (filter (fun l => p (item l)) ls) = filter p (map item ls).
Proof.
  induction ls as [|l t IH]; cbn; [reflexivity|].
  destruct (p (item l)); cbn; now rewrite IH.
Qed.

(** X18. There is one label per highlighted record, in the order of the
    records and with their names; the labels are keyed [0], [1], ... ; the
    name is written [40] under the axis; and each label is set on the left
    edge of the bar of a highlighted record, its cost [10] over the top of
    that bar. *)
Theorem highlightedLabels_bars (data : list Item) :
  map labelName (highlightedLabels data) = map name (filter highlight data) /\
  map labelKey (highlightedLabels data)
    = seq 0 (List.length (filter highlight data)) /\
  Forall (fun lab =>
            labelNameY lab = add plotBottom (ofZ 40) /\
            exists r,
              In r (getBars data) /\ rectHighlight r = true /\
              labelX lab = rectX r /\
              labelCostY lab = sub (rectY r) (ofZ 10))
         (highlightedLabels data).
Proof.
  unfold highlightedLabels.
  set (hl := filter (fun l => highlight (item l)) (cumulativeData data)).
  assert (Hhl : map item hl = filter highlight data).
  { unfold hl. now rewrite filter_map_item, cumulativeData_items. }
  split.
  { rewrite (mapi_map _ labelName (fun l => name (item l))) by reflexivity.
    now rewrite <- Hhl, map_map. }
  split.
  { rewrite (mapi_keys _ labelKey) by reflexivity.
    now rewrite <- Hhl, length_map. }
  apply Forall_forall. intros lab Hlab.
  destruct (mapi_In _ _ _ _ Hlab) as (l & k & Hl & ->).
  split; [reflexivity|].
  apply filter_In in Hl. destruct Hl as [Hl Hh].
  eexists. split; [unfold getBars; apply in_map, Hl|].
  cbn. split; [exact Hh|]. split; reflexivity.
Qed.

(* ------------------------------------------------------------------ *)
(** * Further properties of the number fields *)

Lemma digit_facts (c : ascii) :
  isDigit c = true ->
  isSpace c = false /\ isPlain c = true /\
  Ascii.eqb c "-" = false /\ Ascii.eqb c "+" = false /\
  Ascii.eqb c "I" = false.
Proof.
  destruct c as [[] [] [] [] [] [] [] []]; intro H;
    try discriminate H; repeat split.
Qed.

Lemma spanDigits_all (s : string) :
  allDigits s = true -> spanDigits s = (list_ascii_of_string s, EmptyString).
Proof.
  induction s as [|c t IH]; cbn; [reflexivity|]. intro H.
  apply andb_prop in H. destruct H as [Hc Ht]. now rewrite Hc, (IH Ht).
Qed.

Lemma string_app_nil_r (s : string) : (s ++ EmptyString)%string = s.
Proof. induction s as [|c t IH]; cbn; [reflexivity|now rewrite IH]. Qed.

Lemma removeChars_app (p : ascii -> bool) (a b : string) :
  removeChars p (a ++ b) = (removeChars p a ++ removeChars p b)%string.
Proof.
  induction a as [|c t IH]; cbn; [reflexivity|].
  destruct (p c); cbn; now rewrite IH.
Qed.

Lemma removeChars_digits (s : string) :
  allDigits s = true -> stripQuotesCommas s = s.
Proof.
  unfold stripQuotesCommas. induction s as [|c t IH]; cbn; [reflexivity|].
  intro H. apply andb_prop in H. destruct H as [Hc Ht].
  destruct (digit_facts c Hc) as (_ & Hp & _). rewrite Hp. cbn.
  now rewrite (IH Ht).
Qed.

Lemma allDigits_app (a b : string) :
  allDigits a = true -> allDigits b = true -> allDigits (a ++ b) = true.
Proof.
  induction a as [|c t IH]; cbn; [auto|]. intros H Hb.
  apply andb_prop in H. destruct H as [Hc Ht]. now rewrite Hc, IH.
Qed.

Lemma stripQuotesCommas_quoted (s : string) :
  stripQuotesCommas (quoted s) = stripQuotesCommas s.
Proof.
  unfold quoted, stripQuotesCommas.
  change (removeChars (fun c => negb (isPlain c))
            (String dquote (s ++ String dquote EmptyString)))
    with (removeChars (fun c => negb (isPlain c))
            (s ++ String dquote EmptyString)).
  rewrite removeChars_app.
  change (removeChars (fun c => negb (isPlain c)) (String dquote EmptyString))
    with EmptyString.
  apply string_app_nil_r.
Qed.

(** the quotes and the thousands separators of a production go away *)
Lemma stripQuotesCommas_groups (groups : list string) :
  Forall (fun g => allDigits g = true) groups ->
  stripQuotesCommas (String.concat "," groups) = String.concat "" groups /\
  allDigits (String.concat "" groups) = true.
Proof.
  induction 1 as [|g t Hg Ht IH]; [split; reflexivity|].
  destruct IH as [IH1 IH2]. destruct t as [|g' t'].
  - split; [apply (removeChars_digits g Hg) | exact Hg].
  - change (String.concat "," (g :: g' :: t'))
      with (g ++ String "," (String.concat "," (g' :: t')))%string.
    change (String.concat "" (g :: g' :: t'))
      with (g ++ String.concat "" (g' :: t'))%string.
    unfold stripQuotesCommas in *. rewrite removeChars_app.
    change (removeChars (fun c => negb (isPlain c))
              (String "," (String.concat "," (g' :: t'))))
      with (removeChars (fun c => negb (isPlain c))
              (String.concat "," (g' :: t'))).
    rewrite IH1. fold stripQuotesCommas. rewrite (removeChars_digits g Hg).
    split; [reflexivity|]. apply allDigits_app; assumption.
Qed.

(** *** Rounding to the nearest double *)

Lemma pow2_pos (k : Z) : (0 < pow2 k)%Q.
Proof. apply Qpower_0_lt. reflexivity. Qed.

Lemma pow2_Z (e : Z) : (0 <= e)%Z -> (pow2 e == inject_Z (2 ^ e))%Q.
Proof. intro H. unfold pow2. now rewrite Zpower_Qpower. Qed.

Lemma roundEven_Z (m : Q) (f : Z) : (m == inject_Z f)%Q -> roundEven m = f.
Proof.
  intro H. unfold roundEven. cbv zeta.
  rewrite (Qfloor_comp _ _ H), Qfloor_Z.
  assert (Hlt : (m - inject_Z f < 1 # 2)%Q) by lra.
  apply Qlt_alt in Hlt.
  change ((m - inject_Z f ?= 1 # 2)%Q = Lt) in Hlt. now rewrite Hlt.
Qed.

(** a positive rational that is a multiple of the unit of its binade, and
    below [2^1024], is a double *)
Lemma roundPos_exact (q : Q) (f : Z) :
  (q / pow2 (Z.max (binade q - 52) (-1074)) == inject_Z f)%Q ->
  (q < pow2 1024)%Q ->
  eqb (roundPos q) (Fin q) = true.
Proof.
  intros Hf Hq. unfold roundPos. cbv zeta. rewrite (@roundEven_Z _ f Hf).
  set (k := Z.max (binade q - 52) (-1074)) in *.
  pose proof (pow2_pos k) as Hk.
  assert (Hv : (inject_Z f * pow2 k == q)%Q).
  { rewrite <- Hf. field. lra. }
  set (B := pow2 1024) in *.
  destruct (Qle_bool B (inject_Z f * pow2 k)) eqn:E.
  - apply Qle_bool_iff in E. lra.
  - cbn [eqb]. apply Qeq_bool_iff. now rewrite Qred_correct.
Qed.

Lemma binade_Z (n : Z) : (0 < n)%Z -> binade (n # 1) = Z.log2 n.
Proof.
  intro Hn. unfold binade. cbn [Qnum Qden Z.log2]. rewrite Z.sub_0_r.
  destruct (Z.log2_spec n Hn) as [Hlo _].
  replace (Qle_bool (pow2 (Z.log2 n)) (n # 1)) with true; [reflexivity|].
  symmetry. apply Qle_bool_iff. rewrite pow2_Z by apply Z.log2_nonneg.
  change (n # 1) with (inject_Z n). now rewrite <- Zle_Qle.
Qed.

(** an integer from [0] to [2^53] is a double *)
Lemma toDouble_Z (n : Z) :
  (0 <= n <= 2 ^ 53)%Z -> eqb (toDouble (n # 1)) (Fin (n # 1)) = true.
Proof.
  intros [H0 Hn]. unfold toDouble.
  destruct (Z.eq_dec n 0) as [->|Hnz]; [reflexivity|].
  assert (Hpos : (0 < n)%Z) by lia.
  assert (Hq : (0 < n # 1)%Q) by (unfold Qlt; cbn; lia).
  apply Qgt_alt in Hq. rewrite Hq.
  set (e := Z.log2 n).
  assert (He : (0 <= e <= 53)%Z).
  { split; [apply Z.log2_nonneg|].
    unfold e. rewrite <- (Z.log2_pow2 53) by lia. now apply Z.log2_le_mono. }
  destruct (Z.log2_spec n Hpos) as [Hlo Hhi]. fold e in Hlo, Hhi.
  assert (Hk : Z.max (binade (n # 1) - 52) (-1074) = (e - 52)%Z).
  { rewrite binade_Z by exact Hpos. fold e. lia. }
  assert (Hbig : (n # 1 < pow2 1024)%Q).
  { rewrite pow2_Z by lia. change (n # 1) with (inject_Z n).
    rewrite <- Zlt_Qlt.
    pose proof (Z.pow_lt_mono_r 2 53 1024) as H. lia. }
  destruct (Z_le_gt_dec e 52) as [Hle|Hgt].
  - apply roundPos_exact with (f := (n * 2 ^ (52 - e))%Z); [|exact Hbig].
    rewrite Hk. replace (e - 52)%Z with (- (52 - e))%Z by lia.
    unfold pow2. rewrite Qpower_opp. fold (pow2 (52 - e)).
    rewrite pow2_Z by lia. rewrite inject_Z_mult.
    change (n # 1) with (inject_Z n).
    assert (H2 : (0 < inject_Z (2 ^ (52 - e)))%Q).
    { rewrite <- pow2_Z by lia. apply pow2_pos. }
    field. lra.
  - assert (E53 : e = 53%Z) by lia.
    assert (Hn53 : n = (2 ^ 53)%Z) by (rewrite E53 in Hlo; lia).
    apply roundPos_exact with (f := (2 ^ 52)%Z); [|exact Hbig].
    rewrite Hk, E53, Hn53. reflexivity.
Qed.

Lemma digitsVal_nonneg (ds : list ascii) : (0 <= digitsVal ds)%Z.
Proof.
  unfold digitsVal.
  assert (H : forall acc, (0 <= acc)%Z ->
            (0 <= fold_left (fun acc c => 10 * acc + digitVal c) ds acc)%Z).
  { induction ds as [|c t IH]; intros acc Hacc; [exact Hacc|].
    cbn [fold_left]. apply IH. unfold digitVal. lia. }
  apply H. lia.
Qed.

Lemma parseFloat_digits_eq (c : ascii) (t : string) :
  isDigit c = true -> allDigits t = true ->
  parseFloat (String c t)
    = toDouble (inject_Z (digitsVal (list_ascii_of_string (String c t)))
                * pow10 0).
Proof.
  intros Hc Ht. unfold parseFloat.
  destruct (digit_facts c Hc) as (Hs & _ & Hm & Hp & Hi).
  cbn [skipSpaces]. rewrite Hs. cbn [takeSign]. rewrite Hm, Hp.
  assert (Hpre : prefix "Infinity" (String c t) = false).
  { cbn [prefix]. destruct (ascii_dec "I" c) as [<-|]; [discriminate|reflexivity]. }
  rewrite Hpre. cbn [spanDigits]. rewrite Hc, (spanDigits_all t Ht).
  cbn [exponent List.length Z.of_nat]. rewrite app_nil_r. reflexivity.
Qed.

(** X19. A production written in groups of digits with commas between
    them and double quotes around, as in the field of [1,234,567] between
    quotes, loses its quotes and its commas, so that the record gets what
    [parseFloat] makes of all the digits; and when the number the digits
    write is at most [2^53], this is that number. *)
Theorem production_thousands (groups : list string) :
  Forall (fun g => allDigits g = true) groups ->
  stripQuotesCommas (quoted (String.concat "," groups))
    = String.concat EmptyString groups /\
  (forall f0 rest i it,
     mapRow (Some (f0 :: quoted (String.concat "," groups) :: rest)) i
       = Ok it ->
     production it = orZero (parseFloat (String.concat EmptyString groups))) /\
  (String.concat EmptyString groups <> EmptyString ->
   (digitsVal (list_ascii_of_string (String.concat EmptyString groups))
    <= 2 ^ 53)%Z ->
   numEq (parseFloat (stripQuotesCommas (quoted (String.concat "," groups))))
         (digitsNumber (String.concat EmptyString groups))).
Proof.
  intro Hg. destruct (stripQuotesCommas_groups Hg) as [Hstrip Hall].
  assert (Hs : stripQuotesCommas (quoted (String.concat "," groups))
               = String.concat EmptyString groups)
    by (now rewrite stripQuotesCommas_quoted).
  split; [exact Hs|]. split.
  - intros f0 rest i it H. unfold mapRow in H.
    cbn [member bind nth_error] in H. injection H as <-.
    cbn [production]. now rewrite Hs.
  - intros Hne Hle. rewrite Hs.
    destruct (String.concat EmptyString groups) as [|c t]; [congruence|].
    cbn [allDigits] in Hall. apply andb_prop in Hall. destruct Hall as [Hc Ht].
    rewrite (@parseFloat_digits_eq c t Hc Ht).
    unfold numEq, digitsNumber, ofZ.
    set (n := digitsVal (list_ascii_of_string (String c t))) in *.
    assert (Hq : (inject_Z n * pow10 0)%Q = n # 1).
    { unfold Qmult, inject_Z, pow10. cbn [Qpower Qnum Qden Pos.mul].
      now rewrite Z.mul_1_r. }
    rewrite Hq. apply toDouble_Z. split; [apply digitsVal_nonneg|exact Hle].
Qed.

Lemma production_thousands_witness :
  (Forall (fun g => allDigits g = true) ["1"; "234"; "567"]%string /\
   String.concat EmptyString ["1"; "234"; "567"]%string <> EmptyString /\
   (digitsVal (list_ascii_of_string
                 (String.concat EmptyString ["1"; "234"; "567"]%string))
    <= 2 ^ 53)%Z) /\
  numEq (parseFloat (stripQuotesCommas (quoted "1,234,567")))
        (ofZ 1234567).
Proof.
  assert (H1 : Forall (fun g => allDigits g = true) ["1"; "234"; "567"]%string)
    by (repeat constructor).
  assert (H2 : String.concat EmptyString ["1"; "234"; "567"]%string
               <> EmptyString)
    by discriminate.
  assert (H3 : (digitsVal (list_ascii_of_string
                  (String.concat EmptyString ["1"; "234"; "567"]%string))
                <= 2 ^ 53)%Z)
    by (vm_compute; discriminate).
  split; [auto|]. exact (proj2 (proj2 (production_thousands H1)) H2 H3).
Defined.
